(** * poir-viewer utility scripts: project summarizer and icon exporter

    A shallow embedding of [generate_project_summary.py] and
    [.dev/create_app_icons.py], with the properties of their
    specification stated and proved (or refuted) over the embedding.

    Conventions of the model.
    - A Python [str] is a [string]; a character is an [ascii], read as a
      code point below 256.  File bytes are [list byte].
    - A path below the project directory is the list of its components;
      [relpath] renders it the way [os.path.relpath(path, project_dir)]
      does on a POSIX system.
    - [fnmatch.fnmatch] is modelled on POSIX, where [os.path.normcase] is
      the identity and matching is case sensitive.
    - The project is a tree of directories and regular files that can all
      be listed and opened; an [OSError] would abort the run and is not
      modelled. *)

From Stdlib Require Import Strings.Ascii Strings.String Strings.Byte.
From stdpp Require Import base list strings gmap pretty.

Local Open Scope string_scope.
Local Open Scope list_scope.

(** ** Python string primitives *)

Module PyStr.

(** [s.startswith(p)] *)
Fixpoint startswith (p s : string) : bool :=
  match p, s with
  | EmptyString, _ => true
  | String a p', String b s' => Ascii.eqb a b && startswith p' s'
  | String _ _, EmptyString => false
  end.

(** [s.endswith(p)] *)
Fixpoint endswith (p s : string) : bool :=
  String.eqb s p ||
  match s with
  | EmptyString => false
  | String _ s' => endswith p s'
  end.

(** [sub in s] *)
Fixpoint contains (sub s : string) : bool :=
  startswith sub s ||
  match s with
  | EmptyString => false
  | String _ s' => contains sub s'
  end.

(** [s.replace(old, new)] for a non-empty [old]: occurrences are replaced
    left to right and do not overlap.  [skip] counts the characters of the
    occurrence just replaced that are still to be stepped over. *)
Fixpoint replace_from (old new : string) (skip : nat) (s : string) : string :=
  match s with
  | EmptyString => EmptyString
  | String c s' =>
      match skip with
      | S k => replace_from old new k s'
      | O =>
          if startswith old s
          then new +:+ replace_from old new (Nat.pred (String.length old)) s'
          else String c (replace_from old new 0 s')
      end
  end.

Definition replace (old new s : string) : string := replace_from old new 0 s.

(** [c.isspace()] on code points below 256. *)
Definition isspace (c : ascii) : bool :=
  let n := nat_of_ascii c in
  ((9 <=? n)%nat && (n <=? 13)%nat) || ((28 <=? n)%nat && (n <=? 32)%nat)
  || (n =? 133)%nat || (n =? 160)%nat.

Fixpoint lstrip (s : string) : string :=
  match s with
  | EmptyString => EmptyString
  | String c s' => if isspace c then lstrip s' else s
  end.

Fixpoint rstrip (s : string) : string :=
  match s with
  | EmptyString => EmptyString
  | String c s' =>
      match rstrip s' with
      | EmptyString => if isspace c then EmptyString else String c EmptyString
      | r => String c r
      end
  end.

(** [s.strip()] *)
Definition strip (s : string) : string := rstrip (lstrip s).

(** The lines a text file object yields when iterated: each line keeps its
    terminating newline, the last one may lack it. *)
Fixpoint readlines_from (cur : string) (s : string) : list string :=
  match s with
  | EmptyString => match cur with EmptyString => [] | _ => [cur] end
  | String c s' =>
      if Ascii.eqb c "010"
      then (cur +:+ String c EmptyString) :: readlines_from EmptyString s'
      else readlines_from (cur +:+ String c EmptyString) s'
  end.

Definition readlines (s : string) : list string := readlines_from EmptyString s.

(** [sep.join(parts)] *)
Fixpoint join (sep : string) (parts : list string) : string :=
  match parts with
  | [] => EmptyString
  | [p] => p
  | p :: ps => p +:+ sep +:+ join sep ps
  end.

(** [s * n] *)
Fixpoint repeat_str (s : string) (n : nat) : string :=
  match n with
  | O => EmptyString
  | S k => s +:+ repeat_str s k
  end.

(** [a <= b] on strings: lexicographic on code points. *)
Fixpoint leb (a b : string) : bool :=
  match a, b with
  | EmptyString, _ => true
  | String _ _, EmptyString => false
  | String x a', String y b' =>
      let nx := nat_of_ascii x in
      let ny := nat_of_ascii y in
      (nx <? ny)%nat || ((nx =? ny)%nat && leb a' b')
  end.

End PyStr.

(** [sorted] on a list keyed by name; the sort is stable, as Python's is. *)
Section Sorted.
Context {A : Type}.

Fixpoint insert_by_name (x : string * A) (l : list (string * A)) : list (string * A) :=
  match l with
  | [] => [x]
  | y :: l' =>
      if PyStr.leb y.1 x.1 then y :: insert_by_name x l' else x :: l
  end.

Definition sorted_by_name (l : list (string * A)) : list (string * A) :=
  foldl (fun acc x => insert_by_name x acc) [] l.
End Sorted.

(** ** [fnmatch.fnmatch] on POSIX

    [translate] follows the scan of [fnmatch.translate]: [*] becomes a
    star (consecutive stars are compressed into one), [?] any character,
    [[...]] a character class when a closing bracket is found and a
    literal bracket otherwise, anything else a literal.  A class is kept
    as its negation flag and its body; [class_mem] reads the body the way
    the generated regular expression does: [lo-hi] is a range (empty when
    the bounds are out of order), every other character stands for
    itself. *)

Module Fnmatch.

Inductive tok : Type :=
  | TStar
  | TAny
  | TLit (c : ascii)
  | TClass (neg : bool) (body : string).

(** Index of the first closing bracket: the [while j < n and pat[j] != ']']
    loop. *)
Fixpoint find_close (s : string) : option nat :=
  match s with
  | EmptyString => None
  | String c s' =>
      if Ascii.eqb c "]" then Some 0 else S <$> find_close s'
  end.

(** Given the text after an opening bracket, the length of the class text
    [pat[i:j]] when the class is closed, following the three steps that set
    [j]: skip one [!], skip one []], search the closing bracket. *)
Definition class_len (s : string) : option nat :=
  let '(n1, s1) :=
    match s with
    | String "!" t => (1, t)
    | _ => (0, s)
    end in
  let '(n2, s2) :=
    match s1 with
    | String "]" t => (1, t)
    | _ => (0, s1)
    end in
  (fun k => n1 + n2 + k) <$> find_close s2.

Fixpoint take_str (n : nat) (s : string) : string :=
  match n, s with
  | S k, String c s' => String c (take_str k s')
  | _, _ => EmptyString
  end.

Definition mk_class (stuff : string) : tok :=
  match stuff with
  | String "!" body => TClass true body
  | _ => TClass false stuff
  end.

Definition star_cons (ts : list tok) : list tok :=
  match ts with
  | TStar :: _ => ts
  | _ => TStar :: ts
  end.

(** [skip] is the number of characters already consumed by a class. *)
Fixpoint translate_from (skip : nat) (pat : string) : list tok :=
  match pat with
  | EmptyString => []
  | String c rest =>
      match skip with
      | S k => translate_from k rest
      | O =>
          if Ascii.eqb c "*" then star_cons (translate_from 0 rest)
          else if Ascii.eqb c "?" then TAny :: translate_from 0 rest
          else if Ascii.eqb c "[" then
            match class_len rest with
            | Some n => mk_class (take_str n rest) :: translate_from (S n) rest
            | None => TLit c :: translate_from 0 rest
            end
          else TLit c :: translate_from 0 rest
      end
  end.

Definition translate (pat : string) : list tok := translate_from 0 pat.

Definition in_range (lo hi c : ascii) : bool :=
  (nat_of_ascii lo <=? nat_of_ascii c)%nat && (nat_of_ascii c <=? nat_of_ascii hi)%nat.

Fixpoint class_mem (c : ascii) (body : string) : bool :=
  match body with
  | EmptyString => false
  | String lo (String "-" (String hi rest)) =>
      in_range lo hi c || class_mem c rest
  | String x rest => Ascii.eqb x c || class_mem c rest
  end.

Definition tok_accepts (t : tok) (c : ascii) : bool :=
  match t with
  | TStar => false
  | TAny => true
  | TLit x => Ascii.eqb x c
  | TClass neg body => xorb neg (class_mem c body)
  end.

(** Whole-string match of the token list (the regular expression is
    anchored at both ends and compiled with DOTALL). *)
Fixpoint tmatch (ts : list tok) (s : string) : bool :=
  match ts with
  | [] => match s with EmptyString => true | _ => false end
  | TStar :: ts' =>
      (fix star (s : string) : bool :=
         tmatch ts' s ||
         match s with
         | EmptyString => false
         | String _ s' => star s'
         end) s
  | t :: ts' =>
      match s with
      | EmptyString => false
      | String c s' => tok_accepts t c && tmatch ts' s'
      end
  end.

Definition fnmatch (name pat : string) : bool := tmatch (translate pat) name.

End Fnmatch.

(** ** The project summarizer: [generate_project_summary.py] *)

Definition nl : string := String "010" EmptyString.

(** *** File contents *)

(** [is_binary]: a null byte among the first 1024 bytes. *)
Definition is_binary (data : list byte) : bool :=
  existsb (Byte.eqb x00) (take 1024 data).

Inductive encoding : Type :=
  | utf_8 | utf_16 | shift_jis | latin_1 | iso_8859_1.

Definition encodings : list encoding :=
  [utf_8; utf_16; shift_jis; latin_1; iso_8859_1].

(** The interpreter's codecs, taken as given.  [None] stands for the
    exception the surrounding [try] catches.
    - [decode e data]: [open(path, 'r', encoding=e).read()]; [None] when
      it raises [UnicodeDecodeError] or [LookupError].
    - [decode_replace data]: the body of the fallback block, a binary read
      followed by [decode('utf-8', errors='replace')]; [None] when it
      raises.
    - [decode_default data]: [open(path, 'r')] read in the locale's
      encoding, as the ignore files are; [None] when it raises.
    The text returned is the one the file object hands out, line ends
    translated to a newline character. *)
Record codecs : Type := Codecs {
  decode : encoding → list byte → option string;
  decode_replace : list byte → option string;
  decode_default : list byte → option string
}.

(** The [for encoding in encodings] loop: the first encoding that decodes
    the file returns; [None] when the loop falls through. *)
Fixpoint try_encodings (cd : codecs) (encs : list encoding) (data : list byte)
  : option string :=
  match encs with
  | [] => None
  | e :: encs' =>
      match decode cd e data with
      | Some text => Some text
      | None => try_encodings cd encs' data
      end
  end.

Definition read_file_contents (cd : codecs) (data : list byte) : string :=
  match try_encodings cd encodings data with
  | Some text => text
  | None =>
      match decode_replace cd data with
      | Some text => text
      | None => EmptyString
      end
  end.

(** *** Ignore patterns *)

(** [os.path.relpath(path, project_dir)] for the path with components
    [path] below the project directory. *)
Definition relpath (path : list string) : string :=
  match path with
  | [] => "."
  | _ => PyStr.join "/" path
  end.

(** The rewrite applied to a (normalized) pattern containing [**]. *)
Definition rewrite_globstar (pattern : string) : string :=
  let pattern := PyStr.replace "**/" "" pattern in
  let pattern :=
    match pattern with
    | String "/" rest => rest
    | _ => pattern
    end in
  "*" +:+ pattern +:+ "*".

(** The two [fnmatch] tests that close a round of the loop. *)
Definition matches_either (relative_path pattern : string) : bool :=
  Fnmatch.fnmatch relative_path pattern
  || Fnmatch.fnmatch ("/" +:+ relative_path) pattern.

(** One round of the [for pattern in patterns_to_check] loop. *)
Definition pattern_matches (relative_path pattern : string) : bool :=
  let pattern := PyStr.replace "\" "/" pattern in
  let pattern :=
    if PyStr.contains "**" pattern then rewrite_globstar pattern else pattern in
  matches_either relative_path pattern.

Definition is_ignored (path : list string)
    (gitignore_patterns summaryignore_patterns structureignore_patterns
       additional_ignore_patterns : list string)
    (check_structure : bool) : bool :=
  let relative_path := PyStr.replace "\" "/" (relpath path) in
  let patterns_to_check := gitignore_patterns ++ additional_ignore_patterns in
  let patterns_to_check :=
    if check_structure
    then patterns_to_check ++ structureignore_patterns
    else patterns_to_check ++ summaryignore_patterns in
  existsb (pattern_matches relative_path) patterns_to_check.

(** The rewrite in the words of the specification: exactly one occurrence
    of [**/] is deleted, the one between [before] and [after]; then a
    leading slash is stripped and the rest is wrapped in stars. *)
Definition rewrite_deleting_one (before after : string) : string :=
  let pattern := before +:+ after in
  let pattern :=
    match pattern with
    | String "/" rest => rest
    | _ => pattern
    end in
  "*" +:+ pattern +:+ "*".

(** *** The project tree *)

#[warnings="-register-all"]
Inductive node : Type :=
  | File (data : list byte)
  | Dir (items : list (string * node)).

Definition lookup_item (name : string) (items : list (string * node))
  : option node :=
  snd <$> List.find (fun it => String.eqb it.1 name) items.

(** The patterns of an ignore file's text:
    [[line.strip() for line in file if line.strip() and not line.startswith('#')]]. *)
Definition patterns_of (text : string) : list string :=
  PyStr.strip <$>
    List.filter
      (fun line =>
         negb (String.eqb (PyStr.strip line) "")
         && negb (PyStr.startswith "#" line))
      (PyStr.readlines text).

(** The [for pattern in patterns] loop that adds the separator variants. *)
Definition expand_pattern (pattern : string) : list string :=
  [pattern]
  ++ (if PyStr.contains "/" pattern then [PyStr.replace "/" "\" pattern] else [])
  ++ (if PyStr.contains "\" pattern then [PyStr.replace "\" "/" pattern] else []).

Definition expand_patterns (patterns : list string) : list string :=
  concat (expand_pattern <$> patterns).

(** The common body of the three readers.  [None]: the run aborts with an
    uncaught exception (the path is a directory, or the text does not
    decode). *)
Definition read_ignore_file (cd : codecs) (name : string)
    (items : list (string * node)) : option (list string) :=
  match lookup_item name items with
  | None => Some []
  | Some (Dir _) => None
  | Some (File data) =>
      text ← decode_default cd data;
      Some (expand_patterns (patterns_of text))
  end.

Definition read_gitignore cd items := read_ignore_file cd ".gitignore" items.
Definition read_summaryignore cd items := read_ignore_file cd ".summaryignore" items.
Definition read_structureignore cd items :=
  read_ignore_file cd ".summarystructureignore" items.

(** The condition under which an ignore file is read without an
    exception: it is absent, or it is a regular file that decodes. *)
Definition readable (cd : codecs) (name : string)
    (items : list (string * node)) : Prop :=
  match lookup_item name items with
  | None => True
  | Some (Dir _) => False
  | Some (File data) => is_Some (decode_default cd data)
  end.

(** The three readers, with the file each one reads. *)
Definition ignore_files
  : list (string * (codecs → list (string * node) → option (list string))) :=
  [ (".gitignore", read_gitignore);
    (".summaryignore", read_summaryignore);
    (".summarystructureignore", read_structureignore) ].

(** *** The walk *)

(** A bullet line of the structure section, with the path it stands for. *)
Record entry : Type := Entry {
  e_path : list string;
  e_dir : bool;
  e_level : nat;
  e_name : string
}.

(** A fenced block of the contents section. *)
Record block : Type := Block {
  b_path : list string;
  b_text : string
}.

Definition render_entry (e : entry) : string :=
  PyStr.repeat_str "  " (e_level e) +:+ "- " +:+ e_name e
  +:+ (if e_dir e then "/" else "") +:+ nl.

Definition render_block (b : block) : string :=
  "### " +:+ relpath (b_path b) +:+ nl +:+ nl +:+ "```" +:+ nl
  +:+ b_text b +:+ nl +:+ "```" +:+ nl +:+ nl.

Definition early_excluded (name : string) : bool :=
  bool_decide (name ∈ ["node_modules"; ".git"; "dist"]).

Section Walk.
Variable cd : codecs.
Variables gitignore_patterns summaryignore_patterns
          structureignore_patterns additional_ignore_patterns : list string.

Definition ignored (path : list string) (check_structure : bool) : bool :=
  is_ignored path gitignore_patterns summaryignore_patterns
    structureignore_patterns additional_ignore_patterns check_structure.

(** The body of the [for item in sorted(files)] loop. *)
Definition visit_file (root : list string) (level : nat)
    (include_contents : bool) (item : string) (data : list byte)
  : list entry * list block :=
  let item_path := root ++ [item] in
  (if negb (ignored item_path true)
   then [Entry item_path false (S level) item] else [],
   if include_contents && negb (is_binary data)
   then
     if negb (ignored item_path false)
     then
       let content := read_file_contents cd data in
       if negb (String.eqb (PyStr.strip content) "")
       then [Block item_path content] else []
     else []
   else []).

Definition subdirs {A} (f : string → node → A) (items : list (string * node))
  : list (string * A) :=
  flat_map (fun it =>
    match it.2 with
    | Dir _ => [(it.1, f it.1 it.2)]
    | File _ => []
    end) items.

Definition files (items : list (string * node)) : list (string * list byte) :=
  flat_map (fun it =>
    match it.2 with
    | Dir _ => []
    | File data => [(it.1, data)]
    end) items.

Definition gather (rs : list (string * (list entry * list block)))
  : list entry * list block :=
  (concat ((fun r => r.2.1) <$> rs), concat ((fun r => r.2.2) <$> rs)).

(** [traverse_directory(root, level, include_contents)], where [root] is
    the directory [n] of name [name]; the pair returned is what the call
    appends to [summary] and to [file_contents_section].  The results of
    the subdirectories are computed item by item and put in the order of
    [sorted(dirs)]: the calls do not depend on one another. *)
Fixpoint traverse_directory (root : list string) (name : string)
    (level : nat) (include_contents : bool) (n : node)
  : list entry * list block :=
  match n with
  | File _ => ([], [])
  | Dir items =>
      if early_excluded name then ([], [])
      else if ignored root true then ([], [])
      else
        let below :=
          gather (sorted_by_name
            (subdirs (fun item child =>
               traverse_directory (root ++ [item]) item (S level)
                 include_contents child) items)) in
        let here :=
          gather ((fun f => (f.1, visit_file root level include_contents f.1 f.2))
                    <$> sorted_by_name (files items)) in
        (Entry root true level name :: below.1 ++ here.1,
         below.2 ++ here.2)
  end.
End Walk.

Definition additional_ignore_patterns (project_name : string) : list string :=
  ["generate_project_summary.py"; ".summaryignore"; ".summarystructureignore";
   project_name +:+ "_project_summary.md";
   project_name +:+ "_project_summary copy.md"; ".git"].

Definition render (out : list entry * list block) (project_name : string) : string :=
  "# " +:+ project_name +:+ nl +:+ nl +:+ "## Directory Structure" +:+ nl +:+ nl
  +:+ String.concat "" (render_entry <$> out.1)
  +:+ nl +:+ "## File Contents" +:+ nl +:+ nl
  +:+ String.concat "" (render_block <$> out.2).

(** The lists appended to the two sections by a run on the directory of
    base name [project_name] holding [items]. *)
Definition summarize (cd : codecs) (project_name : string)
    (items : list (string * node)) : option (list entry * list block) :=
  gitignore_patterns ← read_gitignore cd items;
  summaryignore_patterns ← read_summaryignore cd items;
  structureignore_patterns ← read_structureignore cd items;
  Some (traverse_directory cd gitignore_patterns summaryignore_patterns
          structureignore_patterns (additional_ignore_patterns project_name)
          [] project_name 0 true (Dir items)).

(** [generate_project_summary(project_dir)]: the text written to
    [{project_name}_project_summary.md]; [None] when the run aborts. *)
Definition generate_project_summary (cd : codecs) (project_name : string)
    (items : list (string * node)) : option string :=
  out ← summarize cd project_name items;
  Some (render out project_name).

(** *** A codec table for ASCII files

    A file of ASCII bytes decodes as UTF-8 to the same characters, so that
    no later encoding is consulted for it; Latin-1 decodes any file byte by
    byte.  On other data this table lets the remaining codecs fail. *)
Definition is_ascii (data : list byte) : bool :=
  forallb (fun b => (Byte.to_nat b <? 128)%nat) data.

Definition ascii_text (data : list byte) : option string :=
  if is_ascii data then Some (string_of_list_byte data) else None.

Definition ascii_codecs : codecs :=
  {| decode e data :=
       match e with
       | utf_8 => ascii_text data
       | latin_1 | iso_8859_1 => Some (string_of_list_byte data)
       | utf_16 | shift_jis => None
       end;
     decode_replace data := ascii_text data;
     decode_default data := ascii_text data |}.

Definition text_file (s : string) : node := File (list_byte_of_string s).


(** The project of the scenario: [a/b/c.txt] with contents [c_txt], and a
    [.gitignore] with the single line [pattern]. *)
Definition scenario (pattern : string) (c_txt : list byte)
  : list (string * node) :=
  [ (".gitignore", text_file (pattern +:+ nl));
    ("a", Dir [("b", Dir [("c.txt", File c_txt)])]) ].

(** A project whose [.summaryignore] names one of its files. *)
Definition notes_project : list (string * node) :=
  [ (".summaryignore", text_file ("notes.txt" +:+ nl));
    ("notes.txt", text_file "draft");
    ("blank.txt", text_file "   ");
    ("logo.bin", File [x89; x50; x00; x01]) ].

(** The file of contents [data] lies at [path] below the node. *)
Inductive file_at : node → list string → list byte → Prop :=
  | file_here data : file_at (File data) [] data
  | file_below items item child path data :
      (item, child) ∈ items →
      file_at child path data →
      file_at (Dir items) (item :: path) data.

(** A directory holds no two items of the same name. *)
Fixpoint unique_names (n : node) : bool :=
  match n with
  | File _ => true
  | Dir items =>
      bool_decide (NoDup items.*1)
      && forallb (fun it => unique_names it.2) items
  end.


(** ** The icon exporter: [.dev/create_app_icons.py]

    Of an image only its geometry is modelled; decoding, resampling and
    encoding belong to the imaging library.  The output directory is a
    finite map from file names to what was saved under them. *)

Module Icons.

Record image : Type := Image { width : nat; height : nat }.

(** [base_image.copy().resize(size, LANCZOS)] *)
Definition resize (size : nat * nat) (im : image) : image :=
  Image size.1 size.2.

Inductive artifact : Type :=
  | Raster (im : image)
  | Icns (iconset : list (string * image))
  | Ico (base : image) (sizes : list (nat * nat)).

(** The outcome of [subprocess.run(['iconutil', ...], check=True)]: it
    returns, or raises the exception whose text is [e] (the tool is
    missing, or exits with an error). *)
Inductive tool_outcome : Type :=
  | ToolDone
  | ToolRaised (e : string).

Inductive exn : Type :=
  | NameError (name : string)
  | IndexError.

Record state : Type := State {
  out_dir : gmap string artifact;
  printed : list string
}.

Definition save (name : string) (a : artifact) (st : state) : state :=
  State (<[name := a]> (out_dir st)) (printed st).

Definition print (line : string) (st : state) : state :=
  State (out_dir st) (printed st ++ [line]).

Definition icon_sizes : list (string * nat) :=
  [ ("32x32.png", 32); ("128x128.png", 128); ("128x128@2x.png", 256);
    ("Square30x30Logo.png", 30); ("Square44x44Logo.png", 44);
    ("Square71x71Logo.png", 71); ("Square89x89Logo.png", 89);
    ("Square107x107Logo.png", 107); ("Square142x142Logo.png", 142);
    ("Square150x150Logo.png", 150); ("Square284x284Logo.png", 284);
    ("Square310x310Logo.png", 310); ("StoreLogo.png", 175) ].

Definition icns_sizes : list nat := [16; 32; 64; 128; 256; 512; 1024].

Definition ico_sizes : list nat := [16; 32; 48; 64; 128].

(** One round of the [for filename, size in icon_sizes.items()] loop. *)
Definition export_icon (base_image : image) (st : state) (it : string * nat)
  : state :=
  let icon := resize (it.2, it.2) base_image in
  print ("Generated: " +:+ it.1) (save it.1 (Raster icon) st).

Definition resized_all (base_image : image) (sizes : list nat) : list image :=
  (fun size => resize (size, size) base_image) <$> sizes.

(** The files saved into the temporary directory. *)
Definition iconset (icns_images : list image) : list (string * image) :=
  zip_with (fun size img => ("icon_" +:+ pretty size +:+ ".png", img))
    icns_sizes icns_images.

(** [create_app_icons(base_image_path, output_dir)] from the state [st] of
    the output directory and of the standard output, for the image
    [base_image] that [Image.open] returned.  [tempfile_bound] tells
    whether the global name [tempfile] is bound, which the main block does
    before the call.  The second component is the exception the call
    raises, if any. *)
Definition create_app_icons (tempfile_bound : bool) (iconutil : tool_outcome)
    (base_image : image) (st : state) : state * option exn :=
  let st := foldl (export_icon base_image) st icon_sizes in
  let icns_images := resized_all base_image icns_sizes in
  if negb tempfile_bound then (st, Some (NameError "tempfile"))
  else
    let st :=
      match iconutil with
      | ToolDone =>
          print "Generated: icon.icns"
            (save "icon.icns" (Icns (iconset icns_images)) st)
      | ToolRaised e => print ("Could not generate .icns file: " +:+ e) st
      end in
    let ico_images := resized_all base_image ico_sizes in
    match ico_images with
    | [] => (st, Some IndexError)
    | first :: _ =>
        let st :=
          save "icon.ico"
            (Ico first ((fun img => (width img, height img)) <$> ico_images)) st in
        (print "Generated: icon.ico" st, None)
    end.

(** The script's main block: [tempfile] is imported, then the function is
    called. *)
Definition main (iconutil : tool_outcome) (base_image : image) (st : state)
  : state * option exn :=
  create_app_icons true iconutil base_image st.

End Icons.

From Stdlib Require Import Sorting.Sorted.

(** ** Further notions used to state what the walk lists *)

(** Listed by increasing name. *)
Definition by_name {A : Type} : list (string * A) → Prop :=
  StronglySorted (fun x y => PyStr.leb x.1 y.1 = true).

(** The node has a directory at [path]. *)
Inductive dir_at : node → list string → Prop :=
  | dir_here items : dir_at (Dir items) []
  | dir_below items item child path :
      (item, child) ∈ items →
      dir_at child path →
      dir_at (Dir items) (item :: path).

(** The two tests at the head of [traverse_directory] let the walk enter
    the directory [root], of name [name], and every directory on the way
    from it down [rest]: none has one of the three excluded names and none
    is ignored in the structure variant ([ign] is that test). *)
Fixpoint dir_open (ign : list string → bool) (root : list string)
    (name : string) (rest : list string) : bool :=
  negb (early_excluded name) && negb (ign root)
  && match rest with
     | [] => true
     | item :: rest' => dir_open ign (root ++ [item]) item rest'
     end.

(** [os.path.basename(p)] on POSIX: what follows the last slash. *)
Fixpoint basename (p : string) : string :=
  match p with
  | EmptyString => EmptyString
  | String c p' =>
      if PyStr.contains "/" p then basename p' else p
  end.

(** The main block of the script: the answer to the prompt, or the
    current directory when the answer is blank, is the project directory;
    line 58 takes its base name for project name.  [listing] gives the
    items of a directory. *)
Definition project_directory (answer cwd : string) : string :=
  if String.eqb answer "" then cwd else answer.

Definition script_main (cd : codecs) (listing : string → list (string * node))
    (answer cwd : string) : option string :=
  let project_dir := project_directory answer cwd in
  generate_project_summary cd (basename project_dir) (listing project_dir).

(** The name under which the document is written:
    [f'{project_name}_project_summary.md']. *)
Definition output_name (project_name : string) : string :=
  project_name +:+ "_project_summary.md".

(** The pattern has none of the characters [fnmatch] reads as wildcards,
    and no backslash. *)
Definition wildcard_free (pattern : string) : bool :=
  negb (PyStr.contains "*" pattern) && negb (PyStr.contains "?" pattern)
  && negb (PyStr.contains "[" pattern) && negb (PyStr.contains "\" pattern).

(** A pattern that, once normalized, is a wildcard-free text ending in a
    slash: the way a directory is written in a version-control ignore
    file. *)
Definition directory_pattern (pattern : string) : bool :=
  let pattern := PyStr.replace "\" "/" pattern in
  PyStr.endswith "/" pattern
  && negb (PyStr.contains "*" pattern) && negb (PyStr.contains "?" pattern)
  && negb (PyStr.contains "[" pattern).

(** The normalized relative path [is_ignored] matches patterns against. *)
Definition relative_path (path : list string) : string :=
  PyStr.replace "\" "/" (relpath path).

(** The names a directory listing returns on POSIX: not empty, no slash;
    here also no backslash, which [is_ignored] would turn into a slash. *)
Definition plain_name (name : string) : bool :=
  negb (String.eqb name "") && negb (PyStr.contains "/" name)
  && negb (PyStr.contains "\" name).

(** The list [dirs] of the source, each name with its directory. *)
Definition directories (items : list (string * node)) : list (string * node) :=
  subdirs (fun _ child => child) items.

(** ** Properties of the walk *)

(** Induction on a tree, with the hypothesis available for every item of a
    directory. *)
Lemma node_tree_ind (P : node → Prop) :
  (∀ data, P (File data)) →
  (∀ items, Forall (fun it => P it.2) items → P (Dir items)) →
  ∀ n, P n.
Proof.
  intros HF HD.
  fix IH 1. intros [data | items].
  - apply HF.
  - apply HD. induction items as [| [nm child] items IHitems].
    + constructor.
    + constructor; [apply IH | apply IHitems].
Qed.

Section SortedFacts.
Context {A : Type}.
Implicit Types (x : string * A) (l : list (string * A)).

Lemma insert_by_name_perm x l : insert_by_name x l ≡ₚ x :: l.
Proof.
  induction l as [| y l IH]; simpl; [done |].
  destruct (PyStr.leb y.1 x.1); [| done].
  rewrite IH. apply Permutation_swap.
Qed.

Lemma sorted_by_name_perm l : sorted_by_name l ≡ₚ l.
Proof.
  unfold sorted_by_name.
  assert (H : ∀ acc, foldl (fun acc x => insert_by_name x acc) acc l ≡ₚ acc ++ l).
  { induction l as [| x l IH]; intros acc; simpl.
    - by rewrite app_nil_r.
    - rewrite IH, insert_by_name_perm. simpl. apply Permutation_middle. }
  apply (H []).
Qed.

Lemma elem_of_sorted_by_name x l : x ∈ sorted_by_name l ↔ x ∈ l.
Proof. by rewrite sorted_by_name_perm. Qed.
End SortedFacts.

Lemma elem_of_subdirs {A} (f : string → node → A) items nm r :
  (nm, r) ∈ subdirs f items ↔
  ∃ sub, (nm, Dir sub) ∈ items ∧ r = f nm (Dir sub).
Proof.
  unfold subdirs. rewrite list_elem_of_In, in_flat_map. split.
  - intros ([nm' child] & Hin & Hr). apply list_elem_of_In in Hin.
    destruct child as [data | sub]; simpl in Hr; [done |].
    destruct Hr as [Hr | []]. injection Hr as -> <-. eauto.
  - intros (sub & Hin & ->). exists (nm, Dir sub).
    split; [by apply list_elem_of_In | by left].
Qed.

Lemma elem_of_files items nm data :
  (nm, data) ∈ files items ↔ (nm, File data) ∈ items.
Proof.
  unfold files. rewrite list_elem_of_In, in_flat_map. split.
  - intros ([nm' child] & Hin & Hr). apply list_elem_of_In in Hin.
    destruct child as [data' | sub]; simpl in Hr; [| done].
    destruct Hr as [Hr | []]. by injection Hr as -> ->.
  - intros Hin. exists (nm, File data).
    split; [by apply list_elem_of_In | by left].
Qed.

Lemma elem_of_gather_1 rs e :
  e ∈ (gather rs).1 ↔ ∃ r, r ∈ rs ∧ e ∈ r.2.1.
Proof.
  unfold gather; simpl. rewrite list_elem_of_In, in_concat. split.
  - intros (l & Hl & He). apply list_elem_of_In, list_elem_of_fmap in Hl.
    destruct Hl as (r & -> & Hr). exists r.
    split; [done | by apply list_elem_of_In].
  - intros (r & Hr & He). exists r.2.1. rewrite <- !list_elem_of_In.
    split; [| done]. apply list_elem_of_fmap. by exists r.
Qed.

Lemma elem_of_gather_2 rs b :
  b ∈ (gather rs).2 ↔ ∃ r, r ∈ rs ∧ b ∈ r.2.2.
Proof.
  unfold gather; simpl. rewrite list_elem_of_In, in_concat. split.
  - intros (l & Hl & He). apply list_elem_of_In, list_elem_of_fmap in Hl.
    destruct Hl as (r & -> & Hr). exists r.
    split; [done | by apply list_elem_of_In].
  - intros (r & Hr & He). exists r.2.2. rewrite <- !list_elem_of_In.
    split; [| done]. apply list_elem_of_fmap. by exists r.
Qed.

Lemma unique_item (items : list (string * node)) item c1 c2 :
  NoDup items.*1 → (item, c1) ∈ items → (item, c2) ∈ items → c1 = c2.
Proof.
  induction items as [| [nm c] items IH]; simpl; intros Hnd H1 H2.
  - by apply elem_of_nil in H1.
  - apply NoDup_cons in Hnd as [Hnotin Hnd].
    apply elem_of_cons in H1 as [H1 | H1], H2 as [H2 | H2].
    + congruence.
    + injection H1 as -> ->. destruct Hnotin.
      apply list_elem_of_fmap. by exists (nm, c2).
    + injection H2 as -> ->. destruct Hnotin.
      apply list_elem_of_fmap. by exists (nm, c1).
    + by apply IH.
Qed.

Lemma file_at_unique n path d1 d2 :
  unique_names n = true → file_at n path d1 → file_at n path d2 → d1 = d2.
Proof.
  intros Hu H1. revert d2 Hu.
  induction H1 as [data | items item child path data Hin H1 IH]; intros d2 Hu H2.
  - by inversion H2.
  - inversion H2 as [| ? ? child' ? ? Hin' H2']; subst.
    simpl in Hu. apply andb_true_iff in Hu as [Hnd Hall].
    apply bool_decide_eq_true in Hnd.
    assert (child' = child) as -> by eauto using unique_item.
    apply IH; [| done].
    rewrite forallb_forall in Hall.
    by apply (Hall (item, child)), list_elem_of_In.
Qed.

Section WalkFacts.
Variable cd : codecs.
Variables gi si sti ai : list string.

Local Abbreviation walk := (traverse_directory cd gi si sti ai).
Local Abbreviation ign := (ignored gi si sti ai).

Lemma walk_dir root name level ic items :
  walk root name level ic (Dir items) =
  if early_excluded name then ([], [])
  else if ign root true then ([], [])
  else
    let below :=
      gather (sorted_by_name
        (subdirs (fun item child => walk (root ++ [item]) item (S level) ic child)
           items)) in
    let here :=
      gather ((fun f => (f.1, visit_file cd gi si sti ai root level ic f.1 f.2))
                <$> sorted_by_name (files items)) in
    (Entry root true level name :: below.1 ++ here.1, below.2 ++ here.2).
Proof. reflexivity. Qed.

(** Where an appended line comes from: the directory itself, a
    subdirectory's walk, or a file of the directory. *)
Lemma walk_entry_cases root name level ic items e :
  e ∈ (walk root name level ic (Dir items)).1 →
  early_excluded name = false ∧ ign root true = false ∧
  (e = Entry root true level name
   ∨ (∃ item sub, (item, Dir sub) ∈ items
        ∧ e ∈ (walk (root ++ [item]) item (S level) ic (Dir sub)).1)
   ∨ (∃ item data, (item, File data) ∈ items
        ∧ ign (root ++ [item]) true = false
        ∧ e = Entry (root ++ [item]) false (S level) item)).
Proof.
  rewrite walk_dir.
  destruct (early_excluded name); [by intros ?%elem_of_nil |].
  destruct (ign root true); [by intros ?%elem_of_nil |].
  cbv zeta. simpl. intros He. do 2 (split; [done |]).
  apply elem_of_cons in He as [-> | He]; [by left |]. right.
  apply elem_of_app in He as [He | He].
  - left. apply elem_of_gather_1 in He as ([item r] & Hr & He).
    apply elem_of_sorted_by_name, elem_of_subdirs in Hr as (sub & Hin & ->).
    eauto.
  - right. apply elem_of_gather_1 in He as ([item r] & Hr & He).
    apply list_elem_of_fmap in Hr as ([item' data] & [= -> ->] & Hf).
    apply elem_of_sorted_by_name, elem_of_files in Hf.
    simpl in He. unfold visit_file in He. simpl in He.
    destruct (ignored gi si sti ai (root ++ [item']) true) eqn:Hig;
      simpl in He; [by apply elem_of_nil in He |].
    apply list_elem_of_singleton in He as ->. eauto 10.
Qed.

Lemma walk_block_cases root name level ic items b :
  b ∈ (walk root name level ic (Dir items)).2 →
  early_excluded name = false ∧ ign root true = false ∧
  ((∃ item sub, (item, Dir sub) ∈ items
      ∧ b ∈ (walk (root ++ [item]) item (S level) ic (Dir sub)).2)
   ∨ (∃ item data, (item, File data) ∈ items
        ∧ ic = true ∧ is_binary data = false
        ∧ ign (root ++ [item]) false = false
        ∧ PyStr.strip (read_file_contents cd data) ≠ ""
        ∧ b = Block (root ++ [item]) (read_file_contents cd data))).
Proof.
  rewrite walk_dir.
  destruct (early_excluded name); [by intros ?%elem_of_nil |].
  destruct (ign root true); [by intros ?%elem_of_nil |].
  cbv zeta. simpl. intros Hb. do 2 (split; [done |]).
  apply elem_of_app in Hb as [Hb | Hb].
  - left. apply elem_of_gather_2 in Hb as ([item r] & Hr & Hb).
    apply elem_of_sorted_by_name, elem_of_subdirs in Hr as (sub & Hin & ->).
    eauto.
  - right. apply elem_of_gather_2 in Hb as ([item r] & Hr & Hb).
    apply list_elem_of_fmap in Hr as ([item' data] & [= -> ->] & Hf).
    apply elem_of_sorted_by_name, elem_of_files in Hf.
    simpl in Hb. unfold visit_file in Hb. simpl in Hb.
    destruct ic; simpl in Hb; [| by apply elem_of_nil in Hb].
    destruct (is_binary data) eqn:Hbin; simpl in Hb;
      [by apply elem_of_nil in Hb |].
    destruct (ignored gi si sti ai (root ++ [item']) false) eqn:Hig;
      simpl in Hb; [by apply elem_of_nil in Hb |].
    destruct (String.eqb (PyStr.strip (read_file_contents cd data)) "") eqn:Hs;
      simpl in Hb; [by apply elem_of_nil in Hb |].
    apply list_elem_of_singleton in Hb as ->.
    apply String.eqb_neq in Hs. eauto 12.
Qed.

Lemma walk_entry_below root name level ic items item sub e :
  early_excluded name = false → ign root true = false →
  (item, Dir sub) ∈ items →
  e ∈ (walk (root ++ [item]) item (S level) ic (Dir sub)).1 →
  e ∈ (walk root name level ic (Dir items)).1.
Proof.
  intros Hx Hi Hin He. rewrite walk_dir, Hx, Hi. cbv zeta. simpl.
  apply elem_of_cons; right. apply elem_of_app; left.
  apply elem_of_gather_1.
  exists (item, walk (root ++ [item]) item (S level) ic (Dir sub)).
  split; [| done].
  apply elem_of_sorted_by_name, elem_of_subdirs. eauto.
Qed.

Lemma walk_entry_file root name level ic items item data :
  early_excluded name = false → ign root true = false →
  (item, File data) ∈ items →
  ign (root ++ [item]) true = false →
  Entry (root ++ [item]) false (S level) item
    ∈ (walk root name level ic (Dir items)).1.
Proof.
  intros Hx Hi Hin Hf. rewrite walk_dir, Hx, Hi. cbv zeta. simpl.
  apply elem_of_cons; right. apply elem_of_app; right.
  apply elem_of_gather_1.
  exists (item, visit_file cd gi si sti ai root level ic item data).
  split.
  - apply list_elem_of_fmap. exists (item, data). split; [done |].
    by apply elem_of_sorted_by_name, elem_of_files.
  - simpl. unfold visit_file. simpl.
    change (ignored gi si sti ai (root ++ [item]) true) with (ign (root ++ [item]) true).
    rewrite Hf. simpl. by apply list_elem_of_singleton.
Qed.

(** Every listed path lies below the root of the walk, and no path from
    that root down to it is ignored in the structure variant. *)
Lemma entries_not_ignored n : ∀ root name level ic e,
  e ∈ (walk root name level ic n).1 →
  ∃ rest, e_path e = root ++ rest
    ∧ ∀ k, k `prefix_of` rest → ign (root ++ k) true = false.
Proof.
  induction n as [data | items IH] using node_tree_ind;
    intros root name level ic e He.
  - by apply elem_of_nil in He.
  - apply walk_entry_cases in He as (_ & Hroot & [-> | [He | He]]).
    + exists []. simpl. split; [by rewrite app_nil_r |].
      intros k ->%prefix_nil_inv. by rewrite app_nil_r.
    + destruct He as (item & sub & Hin & He).
      rewrite Forall_forall in IH.
      apply (IH (item, Dir sub)) in He as (rest & Hp & Hk); [| done].
      exists (item :: rest). split; [by rewrite Hp, <- app_assoc |].
      intros [| x k] Hpre; [by rewrite app_nil_r |].
      pose proof (prefix_cons_inv_1 _ _ _ _ Hpre) as ->.
      apply prefix_cons_inv_2 in Hpre.
      rewrite (cons_middle item root k), app_assoc. by apply Hk.
    + destruct He as (item & data & Hin & Hig & ->).
      exists [item]. simpl. split; [done |].
      intros [| x k] Hpre; [by rewrite app_nil_r |].
      pose proof (prefix_cons_inv_1 _ _ _ _ Hpre) as ->.
      apply prefix_cons_inv_2, prefix_nil_inv in Hpre as ->. done.
Qed.

(** Every block stems from a file of the tree that passed the three tests
    of the contents branch. *)
Lemma blocks_origin n : ∀ root name level ic b,
  b ∈ (walk root name level ic n).2 →
  ∃ rest data, b_path b = root ++ rest
    ∧ file_at n rest data
    ∧ ic = true
    ∧ is_binary data = false
    ∧ ign (b_path b) false = false
    ∧ b_text b = read_file_contents cd data
    ∧ PyStr.strip (b_text b) ≠ "".
Proof.
  induction n as [data | items IH] using node_tree_ind;
    intros root name level ic b Hb.
  - by apply elem_of_nil in Hb.
  - apply walk_block_cases in Hb as (_ & _ & [Hb | Hb]).
    + destruct Hb as (item & sub & Hin & Hb).
      rewrite Forall_forall in IH.
      apply (IH (item, Dir sub)) in Hb; [| done].
      destruct Hb as (rest & data & Hp & Hat & Hrest).
      exists (item :: rest), data.
      split; [by rewrite Hp, <- app_assoc |].
      split; [by econstructor |]. done.
    + destruct Hb as (item & data & Hin & -> & Hbin & Hig & Hs & ->).
      exists [item], data. simpl.
      split; [done |]. split; [| done].
      econstructor; [done | constructor].
Qed.

(** A block whose file is not ignored in the structure variant has its
    line in the structure section. *)
Lemma block_has_entry n : ∀ root name level ic b,
  b ∈ (walk root name level ic n).2 →
  ign (b_path b) true = false →
  ∃ e, e ∈ (walk root name level ic n).1
    ∧ e_path e = b_path b ∧ e_dir e = false.
Proof.
  induction n as [data | items IH] using node_tree_ind;
    intros root name level ic b Hb Hs.
  - by apply elem_of_nil in Hb.
  - apply walk_block_cases in Hb as (Hx & Hroot & [Hb | Hb]).
    + destruct Hb as (item & sub & Hin & Hb).
      rewrite Forall_forall in IH.
      apply (IH (item, Dir sub)) in Hb as (e & He & Hp & Hd); [| done..].
      exists e. eauto using walk_entry_below.
    + destruct Hb as (item & data & Hin & -> & Hbin & Hig & Hne & ->).
      simpl in Hs. eexists. split; [by eapply walk_entry_file |]. done.
Qed.

(** Every block lies below the root of the walk, in a directory that was
    not pruned: no path from the root down to the directory of the file is
    ignored in the structure variant. *)
Lemma blocks_not_pruned n : ∀ root name level ic b,
  b ∈ (walk root name level ic n).2 →
  ∃ rest, b_path b = root ++ rest
    ∧ ∀ k, k `prefix_of` rest → k ≠ rest → ign (root ++ k) true = false.
Proof.
  induction n as [data | items IH] using node_tree_ind;
    intros root name level ic b Hb.
  - by apply elem_of_nil in Hb.
  - apply walk_block_cases in Hb as (_ & Hroot & [Hb | Hb]).
    + destruct Hb as (item & sub & Hin & Hb).
      rewrite Forall_forall in IH.
      apply (IH (item, Dir sub)) in Hb as (rest & Hp & Hk); [| done].
      exists (item :: rest). split; [by rewrite Hp, <- app_assoc |].
      intros [| x k] Hpre Hne; [by rewrite app_nil_r |].
      pose proof (prefix_cons_inv_1 _ _ _ _ Hpre) as ->.
      apply prefix_cons_inv_2 in Hpre.
      rewrite (cons_middle item root k), app_assoc.
      apply Hk; [done | congruence].
    + destruct Hb as (item & data & Hin & _ & _ & _ & _ & ->).
      exists [item]. simpl. split; [done |].
      intros [| x k] Hpre Hne; [by rewrite app_nil_r |].
      pose proof (prefix_cons_inv_1 _ _ _ _ Hpre) as ->.
      apply prefix_cons_inv_2, prefix_nil_inv in Hpre as ->. done.
Qed.
End WalkFacts.

(** What a run computes: the walk from the project directory, under the
    patterns of the three ignore files and the built-in list. *)
Lemma summarize_spec cd project_name items out :
  summarize cd project_name items = Some out ↔
  ∃ gi si sti,
    read_gitignore cd items = Some gi
    ∧ read_summaryignore cd items = Some si
    ∧ read_structureignore cd items = Some sti
    ∧ out = traverse_directory cd gi si sti
              (additional_ignore_patterns project_name)
              [] project_name 0 true (Dir items).
Proof.
  unfold summarize. split.
  - destruct (read_gitignore cd items) as [gi |]; [| done].
    destruct (read_summaryignore cd items) as [si |]; [| done].
    destruct (read_structureignore cd items) as [sti |]; [| done].
    simpl. intros [= <-]. by exists gi, si, sti.
  - intros (gi & si & sti & -> & -> & -> & ->). done.
Qed.

Lemma read_ignore_file_defined cd name items :
  readable cd name items → is_Some (read_ignore_file cd name items).
Proof.
  unfold readable, read_ignore_file.
  destruct (lookup_item name items) as [[data | sub] |]; [| done | by eexists].
  intros [text ->]. by eexists.
Qed.

(** The run returns whenever the three ignore files can be read. *)
Lemma generate_project_summary_defined cd project_name items :
  readable cd ".gitignore" items →
  readable cd ".summaryignore" items →
  readable cd ".summarystructureignore" items →
  is_Some (generate_project_summary cd project_name items).
Proof.
  intros [gi Hg]%read_ignore_file_defined [si Hs]%read_ignore_file_defined
    [sti Ht]%read_ignore_file_defined.
  unfold generate_project_summary, summarize,
    read_gitignore, read_summaryignore, read_structureignore.
  rewrite Hg, Hs, Ht. by eexists.
Qed.

Lemma is_ignored_base_only path gi ai :
  is_ignored path gi [] [] ai true = is_ignored path gi [] [] ai false.
Proof. reflexivity. Qed.

(** [is_binary] in the words of its definition: a null byte at one of the
    first 1024 positions. *)
Lemma is_binary_spec data :
  is_binary data = true ↔ ∃ i, (i < 1024)%nat ∧ data !! i = Some x00.
Proof.
  unfold is_binary. rewrite existsb_exists. split.
  - intros (b & Hin & Hb). apply Byte.byte_dec_bl in Hb as <-.
    apply list_elem_of_In, list_elem_of_lookup in Hin as (i & Hi).
    apply lookup_take_Some in Hi as [Hi Hlt]. eauto.
  - intros (i & Hlt & Hi). exists x00. split; [| done].
    apply list_elem_of_In, list_elem_of_lookup. exists i.
    by apply lookup_take_Some.
Qed.



(** ** Patterns and separators *)

Lemma replace_char_cons a b c s :
  PyStr.replace (String a "") (String b "") (String c s)
  = String (if Ascii.eqb a c then b else c)
      (PyStr.replace (String a "") (String b "") s).
Proof.
  unfold PyStr.replace. simpl. destruct (Ascii.eqb a c); reflexivity.
Qed.

(** Normalizing a pattern undoes the swap of its separators. *)
Lemma normalize_after_swap p :
  PyStr.replace "\" "/" (PyStr.replace "/" "\" p) = PyStr.replace "\" "/" p.
Proof.
  induction p as [| c p IH]; [reflexivity |].
  rewrite (replace_char_cons "/" "\" c p), (replace_char_cons "\" "/" c p).
  destruct (Ascii.eqb "/" c) eqn:Hs.
  - apply Ascii.eqb_eq in Hs as <-.
    rewrite replace_char_cons, IH. reflexivity.
  - rewrite replace_char_cons, IH. reflexivity.
Qed.

Lemma normalize_idem p :
  PyStr.replace "\" "/" (PyStr.replace "\" "/" p) = PyStr.replace "\" "/" p.
Proof.
  induction p as [| c p IH]; [reflexivity |].
  rewrite (replace_char_cons "\" "/" c p).
  destruct (Ascii.eqb "\" c) eqn:Hs; rewrite replace_char_cons, IH.
  - reflexivity.
  - by rewrite Hs.
Qed.

Lemma pattern_matches_swap rel p :
  pattern_matches rel (PyStr.replace "/" "\" p) = pattern_matches rel p.
Proof. unfold pattern_matches. by rewrite normalize_after_swap. Qed.

Lemma pattern_matches_normalized rel p :
  pattern_matches rel (PyStr.replace "\" "/" p) = pattern_matches rel p.
Proof. unfold pattern_matches. by rewrite normalize_idem. Qed.

Lemma is_ignored_exists path gi si sti ai b :
  is_ignored path gi si sti ai b = true ↔
  ∃ pattern,
    pattern ∈ gi ++ ai ++ (if b then sti else si)
    ∧ pattern_matches (PyStr.replace "\" "/" (relpath path)) pattern = true.
Proof.
  unfold is_ignored. rewrite existsb_exists.
  destruct b; rewrite <- app_assoc;
    (split; intros (p & Hin & Hm); exists p;
     (split; [by apply list_elem_of_In | done])).
Qed.

Lemma elem_of_expand_patterns q patterns :
  q ∈ expand_patterns patterns ↔ ∃ p, p ∈ patterns ∧ q ∈ expand_pattern p.
Proof.
  unfold expand_patterns. rewrite list_elem_of_In, in_concat. split.
  - intros (l & Hl & Hq). apply list_elem_of_In, list_elem_of_fmap in Hl.
    destruct Hl as (p & -> & Hp). exists p.
    split; [done | by apply list_elem_of_In].
  - intros (p & Hp & Hq). exists (expand_pattern p).
    rewrite <- !list_elem_of_In. split; [| done].
    apply list_elem_of_fmap. by exists p.
Qed.

(** ** Matching a name against itself *)

Lemma append_cons c s t : String c s +:+ t = String c (s +:+ t).
Proof. reflexivity. Qed.

Lemma append_nil t : "" +:+ t = t.
Proof. reflexivity. Qed.

Lemma append_nil_r s : s +:+ "" = s.
Proof.
  induction s as [| c s IH]; [reflexivity |].
  by rewrite append_cons, IH.
Qed.

Lemma append_assoc a b c : (a +:+ b) +:+ c = a +:+ b +:+ c.
Proof.
  induction a as [| x a IH]; [reflexivity |].
  by rewrite !append_cons, IH.
Qed.

Lemma contains_char_cons c x s :
  PyStr.contains (String c "") (String x s)
  = Ascii.eqb c x || PyStr.contains (String c "") s.
Proof. simpl. by rewrite andb_true_r. Qed.

Lemma contains_char_app c s t :
  PyStr.contains (String c "") (s +:+ t)
  = PyStr.contains (String c "") s || PyStr.contains (String c "") t.
Proof.
  induction s as [| x s IH].
  - rewrite append_nil. reflexivity.
  - rewrite append_cons, !contains_char_cons, IH. by rewrite orb_assoc.
Qed.

Section TokenMatch.
Import Fnmatch.

Lemma tmatch_star ts s :
  tmatch (TStar :: ts) s
  = tmatch ts s
    || match s with
       | "" => false
       | String _ s' => tmatch (TStar :: ts) s'
       end.
Proof. by destruct s. Qed.

Lemma tmatch_star_all s : tmatch [TStar] s = true.
Proof.
  induction s as [| c s IH]; [reflexivity |].
  rewrite tmatch_star, IH. apply orb_true_r.
Qed.

Lemma star_cons_weaken ts s :
  tmatch ts s = true → tmatch (star_cons ts) s = true.
Proof.
  intros H. destruct ts as [| [] ts]; simpl star_cons;
    try done; by rewrite tmatch_star, H.
Qed.

Lemma star_cons_skip ts c s :
  tmatch ts s = true → tmatch (star_cons ts) (String c s) = true.
Proof.
  intros H.
  assert (Hstar : tmatch (TStar :: ts) (String c s) = true).
  { rewrite tmatch_star, (tmatch_star ts s), H. apply orb_true_r. }
  destruct ts as [| [] ts]; simpl star_cons; try done.
  rewrite tmatch_star, H. apply orb_true_r.
Qed.

(** A pattern without an opening bracket, followed by whatever pattern
    [q], matches itself followed by whatever [q] matches. *)
Lemma translate_plain_prefix p q t :
  PyStr.contains "[" p = false →
  tmatch (translate q) t = true →
  tmatch (translate (p +:+ q)) (p +:+ t) = true.
Proof.
  intros Hp Hq. unfold translate in *.
  induction p as [| c p IH]; [by rewrite !append_nil |].
  rewrite contains_char_cons in Hp. apply orb_false_iff in Hp as [Hc Hp].
  specialize (IH Hp). rewrite !append_cons.
  cbn [translate_from].
  destruct (Ascii.eqb c "*") eqn:Hstar; [by apply star_cons_skip |].
  destruct (Ascii.eqb c "?") eqn:Hany.
  { cbn [tmatch tok_accepts]. by rewrite IH. }
  rewrite Ascii.eqb_sym in Hc. rewrite Hc.
  cbn [tmatch tok_accepts]. by rewrite Ascii.eqb_refl, IH.
Qed.

Lemma fnmatch_plain_self p :
  PyStr.contains "[" p = false → fnmatch p p = true.
Proof.
  intros Hp. unfold fnmatch.
  pose proof (translate_plain_prefix p "" "" Hp eq_refl) as H.
  by rewrite append_nil_r in H.
Qed.

Lemma fnmatch_plain_wrapped p :
  PyStr.contains "[" p = false → fnmatch p ("*" +:+ p +:+ "*") = true.
Proof.
  intros Hp. unfold fnmatch, translate. rewrite append_cons, append_nil.
  cbn [translate_from]. apply star_cons_weaken.
  pose proof (translate_plain_prefix p "*" "" Hp eq_refl) as H.
  by rewrite append_nil_r in H.
Qed.
End TokenMatch.

(** A pattern free of [*], [?] and [[] wrapped in stars matches the
    names that contain it. *)
Lemma tmatch_plain_then_star lit : ∀ s,
  PyStr.contains "*" lit = false →
  PyStr.contains "?" lit = false →
  PyStr.contains "[" lit = false →
  Fnmatch.tmatch (Fnmatch.translate (lit +:+ "*")) s = PyStr.startswith lit s.
Proof.
  unfold Fnmatch.translate.
  induction lit as [| c lit IH]; intros s Hstar Hany Hbr.
  - rewrite append_nil. apply tmatch_star_all.
  - rewrite contains_char_cons in Hstar, Hany, Hbr.
    apply orb_false_iff in Hstar as [Hc1 Hstar].
    apply orb_false_iff in Hany as [Hc2 Hany].
    apply orb_false_iff in Hbr as [Hc3 Hbr].
    rewrite Ascii.eqb_sym in Hc1, Hc2, Hc3.
    rewrite append_cons. cbn [Fnmatch.translate_from].
    rewrite Hc1, Hc2, Hc3.
    destruct s as [| x s]; [reflexivity |].
    cbn [Fnmatch.tmatch Fnmatch.tok_accepts PyStr.startswith].
    by rewrite IH.
Qed.

Lemma fnmatch_wrapped_substring lit s :
  PyStr.contains "*" lit = false →
  PyStr.contains "?" lit = false →
  PyStr.contains "[" lit = false →
  Fnmatch.fnmatch s ("*" +:+ lit +:+ "*") = PyStr.contains lit s.
Proof.
  intros Hstar Hany Hbr. unfold Fnmatch.fnmatch.
  pose proof (fun s => tmatch_plain_then_star lit s Hstar Hany Hbr) as Hlit.
  unfold Fnmatch.translate in *. rewrite append_cons, append_nil.
  change (Fnmatch.translate_from 0 (String "*" (lit +:+ "*")))
    with (Fnmatch.star_cons (Fnmatch.translate_from 0 (lit +:+ "*"))).
  destruct lit as [| c lit].
  - rewrite append_nil.
    change (Fnmatch.star_cons (Fnmatch.translate_from 0 "*"))
      with [Fnmatch.TStar].
    rewrite tmatch_star_all. by destruct s.
  - assert (Hcons : Fnmatch.star_cons
                      (Fnmatch.translate_from 0 (String c lit +:+ "*"))
                    = Fnmatch.TStar
                        :: Fnmatch.translate_from 0 (String c lit +:+ "*")).
    { rewrite contains_char_cons in Hstar, Hany, Hbr.
      apply orb_false_iff in Hstar as [Hc1 _].
      apply orb_false_iff in Hany as [Hc2 _].
      apply orb_false_iff in Hbr as [Hc3 _].
      rewrite Ascii.eqb_sym in Hc1, Hc2, Hc3.
      rewrite append_cons. cbn [Fnmatch.translate_from].
      by rewrite Hc1, Hc2, Hc3. }
    rewrite Hcons.
    induction s as [| x s IH].
    + rewrite tmatch_star, Hlit. reflexivity.
    + rewrite tmatch_star, Hlit, IH. reflexivity.
Qed.

Lemma replace_globstar_plain s :
  PyStr.contains "/" s = false → PyStr.replace "**/" "" s = s.
Proof.
  unfold PyStr.replace. induction s as [| c s IH]; [reflexivity |].
  intros Hs. pose proof Hs as Hs'.
  rewrite contains_char_cons in Hs'. apply orb_false_iff in Hs' as [_ Hs'].
  cbn [PyStr.replace_from].
  destruct (PyStr.startswith "**/" (String c s)) eqn:Hstart.
  - exfalso. destruct s as [| b [| a s]]; cbn [PyStr.startswith] in Hstart;
      rewrite ?andb_false_r in Hstart; try discriminate.
    apply andb_true_iff in Hstart as [_ Hstart].
    apply andb_true_iff in Hstart as [_ Hstart].
    apply andb_true_iff in Hstart as [Hslash _].
    rewrite !contains_char_cons, Hslash in Hs.
    by rewrite !orb_true_r in Hs.
  - by rewrite IH.
Qed.

Lemma replace_backslash_plain s :
  PyStr.contains "\" s = false → PyStr.replace "\" "/" s = s.
Proof.
  induction s as [| c s IH]; [reflexivity |].
  rewrite contains_char_cons, replace_char_cons.
  intros [-> Hs]%orb_false_iff. by rewrite IH.
Qed.

Lemma strip_slash_plain s :
  PyStr.contains "/" s = false →
  match s with
  | String "/" rest => rest
  | _ => s
  end = s.
Proof.
  destruct s as [| c s]; [done |].
  rewrite contains_char_cons. intros [Hc _]%orb_false_iff.
  by destruct c as [[] [] [] [] [] [] [] []].
Qed.

(** A file name free of [[], [/] and [\], used as a pattern, matches the
    file of that name at the root of the project. *)
Lemma pattern_matches_plain_self f :
  PyStr.contains "[" f = false →
  PyStr.contains "/" f = false →
  PyStr.contains "\" f = false →
  pattern_matches (PyStr.replace "\" "/" (relpath [f])) f = true.
Proof.
  intros Hbr Hsl Hbs. unfold pattern_matches, matches_either.
  change (relpath [f]) with f. rewrite !replace_backslash_plain by done.
  destruct (PyStr.contains "**" f).
  - unfold rewrite_globstar.
    rewrite replace_globstar_plain, strip_slash_plain by done.
    by rewrite fnmatch_plain_wrapped.
  - by rewrite fnmatch_plain_self.
Qed.

(** When the name of the project directory is free of [[], [/] and [\],
    the generated document is ignored in both variants, whatever the ignore
    files hold. *)
Lemma summary_file_ignored project_name gi si sti b :
  PyStr.contains "[" project_name = false →
  PyStr.contains "/" project_name = false →
  PyStr.contains "\" project_name = false →
  is_ignored [project_name +:+ "_project_summary.md"] gi si sti
    (additional_ignore_patterns project_name) b = true.
Proof.
  intros Hbr Hsl Hbs. apply is_ignored_exists.
  exists (project_name +:+ "_project_summary.md"). split.
  - apply elem_of_app. right. apply elem_of_app. left.
    unfold additional_ignore_patterns. repeat constructor.
  - apply pattern_matches_plain_self;
      rewrite contains_char_app; apply orb_false_iff; by split.
Qed.

(** ** Patterns that end in a slash *)

Lemma fnmatch_literal lit : ∀ s,
  PyStr.contains "*" lit = false →
  PyStr.contains "?" lit = false →
  PyStr.contains "[" lit = false →
  Fnmatch.fnmatch s lit = String.eqb s lit.
Proof.
  unfold Fnmatch.fnmatch, Fnmatch.translate.
  induction lit as [| c lit IH]; intros s Hstar Hany Hbr.
  - by destruct s.
  - rewrite contains_char_cons in Hstar, Hany, Hbr.
    apply orb_false_iff in Hstar as [Hc1 Hstar].
    apply orb_false_iff in Hany as [Hc2 Hany].
    apply orb_false_iff in Hbr as [Hc3 Hbr].
    rewrite Ascii.eqb_sym in Hc1, Hc2, Hc3.
    cbn [Fnmatch.translate_from]. rewrite Hc1, Hc2, Hc3.
    destruct s as [| x s]; [reflexivity |].
    cbn [Fnmatch.tmatch Fnmatch.tok_accepts String.eqb].
    by rewrite IH, Ascii.eqb_sym.
Qed.

Lemma endswith_app lit suffix : PyStr.endswith suffix (lit +:+ suffix) = true.
Proof.
  induction lit as [| c lit IH].
  - rewrite append_nil. destruct suffix; simpl; [done |].
    by rewrite Ascii.eqb_refl, String.eqb_refl.
  - rewrite append_cons. cbn [PyStr.endswith]. rewrite IH. apply orb_true_r.
Qed.

Lemma endswith_cons suffix c s :
  s ≠ "" → PyStr.endswith (String suffix "") (String c s)
           = PyStr.endswith (String suffix "") s.
Proof.
  intros Hs. cbn [PyStr.endswith String.eqb].
  destruct s; [done |]. by destruct (Ascii.eqb c suffix).
Qed.

Lemma no_star_no_globstar s :
  PyStr.contains "*" s = false → PyStr.contains "**" s = false.
Proof.
  induction s as [| c s IH]; [done |].
  rewrite contains_char_cons. intros [Hc Hs]%orb_false_iff.
  cbn [PyStr.contains PyStr.startswith]. by rewrite Hc, IH.
Qed.

(** A pattern made of ordinary characters and a final slash matches no
    relative path: such a path is not empty and does not end in a
    slash. *)
Lemma trailing_slash_matches_nothing lit rel :
  PyStr.contains "*" lit = false →
  PyStr.contains "?" lit = false →
  PyStr.contains "[" lit = false →
  PyStr.contains "\" lit = false →
  rel ≠ "" →
  PyStr.endswith "/" rel = false →
  pattern_matches rel (lit +:+ "/") = false.
Proof.
  intros Hstar Hany Hbr Hbs Hne Hend. unfold pattern_matches, matches_either.
  assert (Hplain : ∀ c, PyStr.contains (String c "") lit = false →
            Ascii.eqb c "/" = false →
            PyStr.contains (String c "") (lit +:+ "/") = false).
  { intros c Hc Hsl. rewrite contains_char_app, Hc. simpl.
    by rewrite Hsl. }
  rewrite replace_backslash_plain by (by apply Hplain).
  rewrite no_star_no_globstar by (by apply Hplain).
  rewrite !fnmatch_literal by (by apply Hplain).
  apply orb_false_iff. split.
  - apply String.eqb_neq. intros ->. by rewrite endswith_app in Hend.
  - apply String.eqb_neq. intros Heq.
    pose proof (endswith_app lit "/") as Hlit. rewrite <- Heq in Hlit.
    change ("/" +:+ rel) with (String "/" rel) in Hlit.
    rewrite endswith_cons in Hlit by done. congruence.
Qed.

Lemma replace_char_app a b s t :
  PyStr.replace (String a "") (String b "") (s +:+ t)
  = PyStr.replace (String a "") (String b "") s
    +:+ PyStr.replace (String a "") (String b "") t.
Proof.
  induction s as [| c s IH]; [by rewrite !append_nil |].
  by rewrite append_cons, !replace_char_cons, append_cons, IH.
Qed.

Lemma endswith_char_app c s t :
  t ≠ "" →
  PyStr.endswith (String c "") (s +:+ t) = PyStr.endswith (String c "") t.
Proof.
  intros Ht. induction s as [| x s IH]; [by rewrite append_nil |].
  rewrite append_cons, endswith_cons; [done |].
  destruct s; [by rewrite append_nil | done].
Qed.

Lemma endswith_normalized s :
  PyStr.endswith "/" (PyStr.replace "\" "/" s)
  = PyStr.endswith "/" s || PyStr.endswith "\" s.
Proof.
  induction s as [| c s IH]; [reflexivity |].
  rewrite replace_char_cons.
  destruct s as [| x s].
  - change (PyStr.replace "\" "/" "") with "".
    destruct (Ascii.eqb "\" c) eqn:Hc.
    + apply Ascii.eqb_eq in Hc as <-. reflexivity.
    + cbn [PyStr.endswith String.eqb].
      rewrite (Ascii.eqb_sym c "\"), Hc.
      by destruct (Ascii.eqb c "/").
  - rewrite !(endswith_cons _ c (String x s)) by done.
    rewrite <- IH. rewrite replace_char_cons. by rewrite endswith_cons.
Qed.

Lemma join_snoc sep p c :
  p ≠ [] → PyStr.join sep (p ++ [c]) = PyStr.join sep p +:+ sep +:+ c.
Proof.
  induction p as [| x p IH]; [done |]. intros _.
  destruct p as [| y p]; [reflexivity |].
  change (PyStr.join sep ((x :: y :: p) ++ [c]))
    with (x +:+ sep +:+ PyStr.join sep ((y :: p) ++ [c])).
  rewrite IH by done.
  change (PyStr.join sep (x :: y :: p))
    with (x +:+ sep +:+ PyStr.join sep (y :: p)).
  by rewrite !append_assoc.
Qed.

(** The normalized relative path of an item whose name is not empty and
    ends neither in a slash nor in a backslash is not empty and does not
    end in a slash. *)
Lemma relative_path_end path :
  (∀ c, last path = Some c →
     c ≠ "" ∧ PyStr.endswith "/" c = false ∧ PyStr.endswith "\" c = false) →
  PyStr.replace "\" "/" (relpath path) ≠ ""
  ∧ PyStr.endswith "/" (PyStr.replace "\" "/" (relpath path)) = false.
Proof.
  intros Hlast. destruct path as [| x path] using rev_ind; [done |].
  clear IHpath. destruct (Hlast x) as (Hne & Hsl & Hbs); [by rewrite last_snoc |].
  assert (Hx : PyStr.replace "\" "/" x ≠ "").
  { destruct x as [| c x]; [done |]. by rewrite replace_char_cons. }
  assert (Hend : PyStr.endswith "/" (PyStr.replace "\" "/" x) = false).
  { by rewrite endswith_normalized, Hsl, Hbs. }
  destruct path as [| y path].
  - done.
  - assert (Hrel : relpath ((y :: path) ++ [x])
                   = PyStr.join "/" (y :: path) +:+ "/" +:+ x).
    { rewrite <- join_snoc by done. reflexivity. }
    rewrite Hrel, <- append_assoc, replace_char_app.
    split.
    + intros Heq. apply Hx.
      destruct (PyStr.replace "\" "/" (PyStr.join "/" (y :: path) +:+ "/"));
        [by rewrite append_nil in Heq | done].
    + by rewrite endswith_char_app.
Qed.


(** ** The icon exporter *)

Section IconFacts.
Import Icons.

Variable base_image : image.

Lemma export_other l : ∀ st name,
  name ∉ l.*1 →
  out_dir (foldl (export_icon base_image) st l) !! name = out_dir st !! name.
Proof.
  induction l as [| [nm size] l IH]; intros st name Hn; simpl; [done |].
  apply not_elem_of_cons in Hn as [Hne Hn].
  rewrite IH by done. simpl. by apply lookup_insert_ne.
Qed.

Lemma export_saved l : ∀ st name size,
  NoDup l.*1 → (name, size) ∈ l →
  out_dir (foldl (export_icon base_image) st l) !! name
  = Some (Raster (Image size size)).
Proof.
  induction l as [| [nm sz] l IH]; intros st name size Hnd Hin; simpl.
  - by apply elem_of_nil in Hin.
  - simpl in Hnd. apply NoDup_cons in Hnd as [Hfresh Hnd].
    apply elem_of_cons in Hin as [[= -> ->] | Hin].
    + rewrite export_other by done. simpl. apply lookup_insert_eq.
    + by apply IH.
Qed.

Lemma icon_names_nodup : NoDup icon_sizes.*1.
Proof. apply (bool_decide_unpack _). by vm_compute. Qed.

(** What the call leaves under a name that is none of the two containers:
    the directory as the raster loop left it. *)
Lemma containers_only tempfile_bound iconutil st name :
  name ≠ "icon.icns" → name ≠ "icon.ico" →
  out_dir (create_app_icons tempfile_bound iconutil base_image st).1 !! name
  = out_dir (foldl (export_icon base_image) st icon_sizes) !! name.
Proof.
  intros Hicns Hico. unfold create_app_icons.
  destruct tempfile_bound; simpl; [| done].
  rewrite lookup_insert_ne by done.
  destruct iconutil; simpl; [| done].
  by rewrite lookup_insert_ne.
Qed.

Lemma export_printed l : ∀ st,
  printed (foldl (export_icon base_image) st l)
  = printed st ++ ((fun it => "Generated: " +:+ it.1) <$> l).
Proof.
  induction l as [| it l IH]; intros st; simpl.
  - by rewrite app_nil_r.
  - rewrite IH. simpl. by rewrite <- app_assoc.
Qed.
End IconFacts.

(** ** The claims *)




(** C2, as stated, fails: on the pattern [x**/**/y] the matching function
    deletes both occurrences of [**/] and so ignores the path [xy], while
    the pattern rewritten by deleting exactly one occurrence, whichever it
    is, matches neither [xy] nor [/xy]. *)
Lemma C2_counterexample :
  PyStr.contains "**" "x**/**/y" = true
  ∧ is_ignored ["xy"] ["x**/**/y"] [] [] [] false = true
  ∧ ∀ before after,
      "x**/**/y" = before +:+ "**/" +:+ after →
      matches_either (PyStr.replace "\" "/" (relpath ["xy"]))
        (rewrite_deleting_one before after) = false.
Proof.
  split; [reflexivity |]. split; [reflexivity |].
  intros before after H.
  do 8 (destruct before as [| ? before]; vm_compute in H;
        [ simplify_eq; reflexivity | injection H as <- H ]).
  destruct before; discriminate H.
Qed.

(** C2, amended. For a pattern that contains [**] once its backslashes are
    turned into slashes, the matching function deletes every occurrence of
    [**/] from the normalized pattern (one pass from the left, as
    [str.replace] does), strips a leading slash and wraps the rest in
    stars; the path is ignored by the pattern exactly when its normalized
    relative path, or that path with a slash put in front, matches the
    rewritten pattern. *)
Theorem C2_globstar_rewrite
    (path : list string) (pattern : string) (check_structure : bool) :
  PyStr.contains "**" (PyStr.replace "\" "/" pattern) = true →
  rewrite_globstar (PyStr.replace "\" "/" pattern)
    = "*" +:+ match PyStr.replace "**/" "" (PyStr.replace "\" "/" pattern) with
              | String "/" rest => rest
              | rest => rest
              end +:+ "*"
  ∧ is_ignored path [pattern] [] [] [] check_structure
    = matches_either (PyStr.replace "\" "/" (relpath path))
        (rewrite_globstar (PyStr.replace "\" "/" pattern))
  ∧ matches_either (PyStr.replace "\" "/" (relpath path))
      (rewrite_globstar (PyStr.replace "\" "/" pattern))
    = (Fnmatch.fnmatch (PyStr.replace "\" "/" (relpath path))
         (rewrite_globstar (PyStr.replace "\" "/" pattern))
       || Fnmatch.fnmatch ("/" +:+ PyStr.replace "\" "/" (relpath path))
            (rewrite_globstar (PyStr.replace "\" "/" pattern))).
Proof.
  intros Hstar. split.
  - unfold rewrite_globstar.
    by destruct (PyStr.replace "**/" "" (PyStr.replace "\" "/" pattern))
      as [| [[] [] [] [] [] [] [] []] ?].
  - split; [| reflexivity].
    unfold is_ignored. destruct check_structure; simpl;
      unfold pattern_matches; rewrite Hstar; by rewrite orb_false_r.
Qed.

Lemma C2_witness :
  PyStr.contains "**" (PyStr.replace "\" "/" "x**/**/y") = true
  ∧ is_ignored ["xy"] ["x**/**/y"] [] [] [] true
    = matches_either (PyStr.replace "\" "/" (relpath ["xy"]))
        (rewrite_globstar (PyStr.replace "\" "/" "x**/**/y")).
Proof.
  split; [reflexivity |].
  apply (C2_globstar_rewrite ["xy"] "x**/**/y" true). reflexivity.
Defined.

(** C3. Every pattern read from one of the three ignore files is loaded
    together with its separator counterparts: the pattern with [/]
    replaced by [\] when it contains [/], and with [\] replaced by [/]
    when it contains [\].  The matching function decides every path under
    a counterpart as it does under the pattern itself. *)
Theorem C3_separator_counterparts
    (cd : codecs) (items : list (string * node)) (name : string)
    (reader : codecs → list (string * node) → option (list string))
    (data : list byte) (text p : string) :
  (name, reader) ∈ ignore_files →
  lookup_item name items = Some (File data) →
  decode_default cd data = Some text →
  p ∈ patterns_of text →
  ∃ loaded,
    reader cd items = Some loaded
    ∧ p ∈ loaded
    ∧ (PyStr.contains "/" p = true → PyStr.replace "/" "\" p ∈ loaded)
    ∧ (PyStr.contains "\" p = true → PyStr.replace "\" "/" p ∈ loaded)
    ∧ (∀ path b,
         is_ignored path [PyStr.replace "/" "\" p] [] [] [] b
         = is_ignored path [p] [] [] [] b)
    ∧ (∀ path b,
         is_ignored path [PyStr.replace "\" "/" p] [] [] [] b
         = is_ignored path [p] [] [] [] b).
Proof.
  intros Hreader Hfile Htext Hp.
  exists (expand_patterns (patterns_of text)).
  split.
  { unfold ignore_files in Hreader.
    repeat (apply elem_of_cons in Hreader as [[= -> ->] | Hreader];
      [unfold read_gitignore, read_summaryignore, read_structureignore,
         read_ignore_file; by rewrite Hfile, Htext |]).
    by apply elem_of_nil in Hreader. }
  split.
  { apply elem_of_expand_patterns. exists p. split; [done |].
    unfold expand_pattern. apply elem_of_app. left. by apply list_elem_of_singleton. }
  split.
  { intros Hs. apply elem_of_expand_patterns. exists p. split; [done |].
    unfold expand_pattern. rewrite Hs.
    apply elem_of_app. right. apply elem_of_app. left.
    by apply list_elem_of_singleton. }
  split.
  { intros Hs. apply elem_of_expand_patterns. exists p. split; [done |].
    unfold expand_pattern. rewrite Hs.
    apply elem_of_app. right. apply elem_of_app. right.
    by apply list_elem_of_singleton. }
  split.
  - intros path b. unfold is_ignored. destruct b; simpl;
      by rewrite pattern_matches_swap.
  - intros path b. unfold is_ignored. destruct b; simpl;
      by rewrite pattern_matches_normalized.
Qed.

Lemma C3_witness :
  ∃ loaded,
    read_gitignore ascii_codecs (scenario "a/b/" (list_byte_of_string "hello"))
      = Some loaded
    ∧ "a/b/" ∈ loaded
    ∧ (PyStr.contains "/" "a/b/" = true → PyStr.replace "/" "\" "a/b/" ∈ loaded)
    ∧ (PyStr.contains "\" "a/b/" = true → PyStr.replace "\" "/" "a/b/" ∈ loaded)
    ∧ (∀ path b,
         is_ignored path [PyStr.replace "/" "\" "a/b/"] [] [] [] b
         = is_ignored path ["a/b/"] [] [] [] b)
    ∧ (∀ path b,
         is_ignored path [PyStr.replace "\" "/" "a/b/"] [] [] [] b
         = is_ignored path ["a/b/"] [] [] [] b).
Proof.
  apply (C3_separator_counterparts ascii_codecs
           (scenario "a/b/" (list_byte_of_string "hello"))
           ".gitignore" read_gitignore
           (list_byte_of_string ("a/b/" +:+ nl)) ("a/b/" +:+ nl) "a/b/").
  - unfold ignore_files. repeat constructor.
  - reflexivity.
  - reflexivity.
  - vm_compute. repeat constructor.
Defined.

(** C4. A directory that the structure variant of the matching function
    ignores contributes nothing to the structure section: no line for the
    directory, and none for any path below it, whatever the patterns say
    of that path on its own. *)
Theorem C4_ignored_directory_pruned
    (cd : codecs) (gi si sti ai : list string) (project_name : string)
    (level : nat) (include_contents : bool) (items : list (string * node))
    (d : list string) (e : entry) :
  is_ignored d gi si sti ai true = true →
  e ∈ (traverse_directory cd gi si sti ai [] project_name level
         include_contents (Dir items)).1 →
  ¬ d `prefix_of` e_path e.
Proof.
  intros Hd He Hpre.
  apply entries_not_ignored in He as (rest & Hp & Hk).
  simpl in Hp. rewrite Hp in Hpre. apply Hk in Hpre. simpl in Hpre.
  unfold ignored in Hpre. congruence.
Qed.

Lemma C4_witness :
  is_ignored ["a"; "b"] ["a/b"] [] [] (additional_ignore_patterns "proj") true = true
  ∧ Entry ["a"] true 1 "a"
      ∈ (traverse_directory ascii_codecs ["a/b"] [] []
           (additional_ignore_patterns "proj") [] "proj" 0 true
           (Dir (scenario "a/b" (list_byte_of_string "hello")))).1
  ∧ ¬ ["a"; "b"] `prefix_of` e_path (Entry ["a"] true 1 "a").
Proof.
  assert (H1 : is_ignored ["a"; "b"] ["a/b"] [] []
                 (additional_ignore_patterns "proj") true = true) by (by vm_compute).
  assert (H2 : Entry ["a"] true 1 "a"
      ∈ (traverse_directory ascii_codecs ["a/b"] [] []
           (additional_ignore_patterns "proj") [] "proj" 0 true
           (Dir (scenario "a/b" (list_byte_of_string "hello")))).1).
  { vm_compute. repeat constructor. }
  split; [exact H1 |]. split; [exact H2 |].
  exact (C4_ignored_directory_pruned _ _ _ _ _ _ _ _ _ _ _ H1 H2).
Defined.

(** C5. A file can have its line in the structure section and no block in
    the contents section.  Conversely, when for a file both variants of the
    matching function decide as the shared patterns alone do (the
    version-control patterns and the built-in list), a block in the
    contents section comes with a line in the structure section. *)
Theorem C5_structure_and_contents :
  (∃ out e,
     summarize ascii_codecs "proj" notes_project = Some out
     ∧ file_at (Dir notes_project) ["notes.txt"] (list_byte_of_string "draft")
     ∧ is_ignored ["notes.txt"] [] ["notes.txt"] []
         (additional_ignore_patterns "proj") true = false
     ∧ is_ignored ["notes.txt"] [] ["notes.txt"] []
         (additional_ignore_patterns "proj") false = true
     ∧ e ∈ out.1 ∧ e_path e = ["notes.txt"] ∧ e_dir e = false
     ∧ ∀ b, b ∈ out.2 → b_path b ≠ ["notes.txt"])
  ∧ (∀ (cd : codecs) (gi si sti ai : list string) (name : string)
       (level : nat) (include_contents : bool)
       (items : list (string * node)) (b : block),
       is_ignored (b_path b) gi si sti ai true
         = is_ignored (b_path b) gi [] [] ai true →
       is_ignored (b_path b) gi si sti ai false
         = is_ignored (b_path b) gi [] [] ai false →
       b ∈ (traverse_directory cd gi si sti ai [] name level
              include_contents (Dir items)).2 →
       ∃ e, e ∈ (traverse_directory cd gi si sti ai [] name level
                   include_contents (Dir items)).1
         ∧ e_path e = b_path b ∧ e_dir e = false).
Proof.
  split.
  - eexists _, (Entry ["notes.txt"] false 1 "notes.txt").
    split; [by vm_compute |].
    split; [econstructor; [| constructor]; repeat constructor |].
    split; [by vm_compute |]. split; [by vm_compute |].
    split; [simpl; repeat constructor |].
    split; [done |]. split; [done |].
    intros b Hb. simpl in Hb.
    repeat (apply elem_of_cons in Hb as [-> | Hb]; [done |]).
    by apply elem_of_nil in Hb.
  - intros cd gi si sti ai name level ic items b Hs Hc Hb.
    apply block_has_entry; [done |].
    pose proof (blocks_origin cd gi si sti ai _ _ _ _ _ _ Hb)
      as (rest & data & _ & _ & _ & _ & Hig & _).
    unfold ignored in *. rewrite Hs, is_ignored_base_only, <- Hc. exact Hig.
Qed.

Lemma C5_witness :
  ∃ e, e ∈ (traverse_directory ascii_codecs [] [] []
              (additional_ignore_patterns "proj") [] "proj" 0 true
              (Dir (scenario "a/b/" (list_byte_of_string "hello")))).1
    ∧ e_path e = [".gitignore"] ∧ e_dir e = false.
Proof.
  apply (proj2 C5_structure_and_contents ascii_codecs [] [] []
           (additional_ignore_patterns "proj") "proj" 0 true
           (scenario "a/b/" (list_byte_of_string "hello"))
           (Block [".gitignore"] ("a/b/" +:+ nl))).
  - reflexivity.
  - reflexivity.
  - vm_compute. repeat constructor.
Defined.

(** C6. A file with a null byte among its first 1024 bytes has no block in
    the contents section, whatever the ignore patterns are. *)
Theorem C6_binary_never_dumped
    (cd : codecs) (gi si sti ai : list string) (project_name : string)
    (level : nat) (include_contents : bool) (items : list (string * node))
    (path : list string) (data : list byte) (b : block) :
  unique_names (Dir items) = true →
  file_at (Dir items) path data →
  (∃ i, (i < 1024)%nat ∧ data !! i = Some x00) →
  b ∈ (traverse_directory cd gi si sti ai [] project_name level
         include_contents (Dir items)).2 →
  b_path b ≠ path.
Proof.
  intros Hu Hat Hnul%is_binary_spec Hb Hp.
  apply blocks_origin in Hb
    as (rest & data' & Hrest & Hat' & _ & Hbin & _).
  simpl in Hrest. rewrite Hp in Hrest. subst rest.
  assert (data' = data) as -> by eauto using file_at_unique.
  congruence.
Qed.

Lemma C6_witness :
  unique_names (Dir notes_project) = true
  ∧ file_at (Dir notes_project) ["logo.bin"] [x89; x50; x00; x01]
  ∧ (∃ i, (i < 1024)%nat ∧ [x89; x50; x00; x01] !! i = Some x00)
  ∧ Block ["notes.txt"] "draft"
      ∈ (traverse_directory ascii_codecs [] [] []
           (additional_ignore_patterns "proj") [] "proj" 0 true
           (Dir notes_project)).2
  ∧ b_path (Block ["notes.txt"] "draft") ≠ ["logo.bin"].
Proof.
  assert (H1 : unique_names (Dir notes_project) = true) by (by vm_compute).
  assert (H2 : file_at (Dir notes_project) ["logo.bin"] [x89; x50; x00; x01]).
  { econstructor; [| constructor]. repeat constructor. }
  assert (H3 : ∃ i, (i < 1024)%nat ∧ [x89; x50; x00; x01] !! i = Some x00).
  { exists 2%nat. split; [lia | reflexivity]. }
  assert (H4 : Block ["notes.txt"] "draft"
      ∈ (traverse_directory ascii_codecs [] [] []
           (additional_ignore_patterns "proj") [] "proj" 0 true
           (Dir notes_project)).2).
  { vm_compute. repeat constructor. }
  repeat (split; [assumption |]).
  exact (C6_binary_never_dumped _ _ _ _ _ _ _ _ _ _ _ _ H1 H2 H3 H4).
Defined.



(** C8. Given a base image, the exporter saves thirteen raster files,
    under thirteen distinct names, each with the square size its name has
    in the table; every raster file found in the output directory after
    the call is one of them or was there before.  In particular
    [32x32.png] is 32 by 32 and [Square310x310Logo.png] is 310 by 310. *)
Theorem C8_thirteen_raster_files
    (tempfile_bound : bool) (iconutil : Icons.tool_outcome)
    (base_image : Icons.image) (st : Icons.state) :
  length Icons.icon_sizes = 13
  ∧ NoDup Icons.icon_sizes.*1
  ∧ (∀ name size, (name, size) ∈ Icons.icon_sizes →
       Icons.out_dir
         (Icons.create_app_icons tempfile_bound iconutil base_image st).1 !! name
       = Some (Icons.Raster (Icons.Image size size)))
  ∧ (∀ name im,
       Icons.out_dir
         (Icons.create_app_icons tempfile_bound iconutil base_image st).1 !! name
       = Some (Icons.Raster im) →
       name ∈ Icons.icon_sizes.*1
       ∨ Icons.out_dir st !! name = Some (Icons.Raster im))
  ∧ Icons.out_dir
      (Icons.create_app_icons tempfile_bound iconutil base_image st).1
      !! "32x32.png" = Some (Icons.Raster (Icons.Image 32 32))
  ∧ Icons.out_dir
      (Icons.create_app_icons tempfile_bound iconutil base_image st).1
      !! "Square310x310Logo.png" = Some (Icons.Raster (Icons.Image 310 310)).
Proof.
  assert (Hsaved : ∀ name size, (name, size) ∈ Icons.icon_sizes →
    Icons.out_dir
      (Icons.create_app_icons tempfile_bound iconutil base_image st).1 !! name
    = Some (Icons.Raster (Icons.Image size size))).
  { intros name size Hin.
    assert (Hname : name ∈ Icons.icon_sizes.*1).
    { apply list_elem_of_fmap. by exists (name, size). }
    rewrite containers_only.
    - by apply export_saved; [apply icon_names_nodup |].
    - intros ->. revert Hname. apply (bool_decide_unpack _). by vm_compute.
    - intros ->. revert Hname. apply (bool_decide_unpack _). by vm_compute. }
  split; [done |]. split; [apply icon_names_nodup |].
  split; [done |]. split.
  - intros name im Hl.
    destruct (decide (name ∈ Icons.icon_sizes.*1)) as [Hin | Hout]; [by left |].
    right. revert Hl. unfold Icons.create_app_icons.
    rewrite <- (export_other base_image Icons.icon_sizes st name Hout).
    generalize (foldl (Icons.export_icon base_image) st Icons.icon_sizes).
    intros st13. destruct tempfile_bound; simpl; [| done].
    destruct (decide (name = "icon.ico")) as [-> | Hico].
    { rewrite lookup_insert_eq. done. }
    rewrite lookup_insert_ne by done.
    destruct iconutil; simpl; [| done].
    destruct (decide (name = "icon.icns")) as [-> | Hicns].
    { rewrite lookup_insert_eq. done. }
    by rewrite lookup_insert_ne.
  - split; apply Hsaved.
    + apply (bool_decide_unpack _). by vm_compute.
    + apply (bool_decide_unpack _). by vm_compute.
Qed.

Lemma C8_witness :
  Icons.out_dir
    (Icons.create_app_icons true (Icons.ToolRaised "No such file or directory")
       (Icons.Image 512 512) (Icons.State ∅ [])).1 !! "StoreLogo.png"
  = Some (Icons.Raster (Icons.Image 175 175)).
Proof.
  apply (C8_thirteen_raster_files true
           (Icons.ToolRaised "No such file or directory")
           (Icons.Image 512 512) (Icons.State ∅ [])).
  apply (bool_decide_unpack _). by vm_compute.
Defined.


(** C10. The built-in pattern meant to hide the generated document is read
    as a glob: in a project directory named [a[b]] the document of an
    earlier run, [a[b]_project_summary.md], is matched by no pattern; it
    is listed in the structure section and its text is dumped. *)
Theorem C10_bracket_name_not_excluded :
  "a[b]_project_summary.md" ∈ additional_ignore_patterns "a[b]"
  ∧ is_ignored ["a[b]_project_summary.md"] [] [] []
      (additional_ignore_patterns "a[b]") true = false
  ∧ is_ignored ["a[b]_project_summary.md"] [] [] []
      (additional_ignore_patterns "a[b]") false = false
  ∧ summarize ascii_codecs "a[b]"
      [("a[b]_project_summary.md", text_file "# a[b]")]
    = Some ([ Entry [] true 0 "a[b]";
              Entry ["a[b]_project_summary.md"] false 1
                "a[b]_project_summary.md" ],
            [ Block ["a[b]_project_summary.md"] "# a[b]" ]).
Proof.
  split; [| by vm_compute]. unfold additional_ignore_patterns. repeat constructor.
Qed.

(** * Further properties of the two scripts *)

(** ** What the walk lists, and what it dumps *)

Section WalkMore.
Variable cd : codecs.
Variables gi si sti ai : list string.

Local Abbreviation walk := (traverse_directory cd gi si sti ai).
Local Abbreviation ign := (ignored gi si sti ai).
Local Abbreviation opened := (dir_open (fun p => ignored gi si sti ai p true)).

Lemma default_last_cons (name item : string) (rest : list string) :
  default name (last (item :: rest)) = default item (last rest).
Proof. rewrite last_cons. by destruct (last rest). Qed.

Lemma opened_unfold root name rest :
  early_excluded name = false → ign root true = false →
  opened root name rest
  = match rest with
    | [] => true
    | item :: rest' => opened (root ++ [item]) item rest'
    end.
Proof. intros Hx Hroot. destruct rest; simpl; by rewrite Hx, Hroot. Qed.

(** Where a line comes from: a directory the walk entered, or a file of
    such a directory that the structure variant does not ignore.  Its
    level counts the components of its path below the root of the walk and
    its name is the last of them. *)
Lemma entry_origin n : ∀ root name level ic e,
  e ∈ (walk root name level ic n).1 →
  ∃ rest,
    e_path e = root ++ rest
    ∧ e_level e = (level + length rest)%nat
    ∧ e_name e = default name (last rest)
    ∧ if e_dir e
      then dir_at n rest ∧ opened root name rest = true
      else ∃ dirs f data,
             rest = dirs ++ [f]
             ∧ file_at n rest data
             ∧ opened root name dirs = true
             ∧ ign (e_path e) true = false.
Proof.
  induction n as [data | items IH] using node_tree_ind;
    intros root name level ic e He.
  - by apply elem_of_nil in He.
  - apply (walk_entry_cases cd gi si sti ai) in He
      as (Hx & Hroot & [-> | [He | He]]).
    + exists []. rewrite opened_unfold by done. simpl.
      rewrite app_nil_r, Nat.add_0_r. repeat split. constructor.
    + destruct He as (item & sub & Hin & He).
      rewrite Forall_forall in IH.
      apply (IH (item, Dir sub)) in He; [| done]. simpl in He.
      destruct He as (rest & Hp & Hl & Hn & Hkind).
      exists (item :: rest).
      split; [by rewrite Hp, <- app_assoc |].
      split; [simpl; lia |].
      split; [by rewrite default_last_cons |].
      destruct (e_dir e).
      * destruct Hkind as [Hat Hopen]. split; [by econstructor |].
        by rewrite opened_unfold.
      * destruct Hkind as (dirs & f & data & -> & Hat & Hopen & Hig).
        exists (item :: dirs), f, data.
        split; [done |]. split; [by econstructor |].
        split; [| done].
        by rewrite opened_unfold.
    + destruct He as (item & data & Hin & Hig & ->).
      exists [item]. simpl.
      split; [done |]. split; [lia |]. split; [done |].
      exists [], item, data.
      split; [done |].
      split; [econstructor; [done | constructor] |].
      split; [| done].
      by rewrite opened_unfold.
Qed.

Lemma opened_head root name rest :
  opened root name rest = true →
  early_excluded name = false ∧ ign root true = false.
Proof.
  destruct rest; simpl; intros H;
    repeat (apply andb_true_iff in H as [H ?]);
    split; by apply negb_true_iff.
Qed.

Lemma opened_cons root name item rest :
  opened root name (item :: rest) = true →
  opened (root ++ [item]) item rest = true.
Proof. simpl. by intros [_ H]%andb_true_iff. Qed.

(** A file the walk reaches and the structure variant does not ignore has
    its line. *)
Lemma file_listed dirs : ∀ n root name level ic f data,
  file_at n (dirs ++ [f]) data →
  opened root name dirs = true →
  ign (root ++ dirs ++ [f]) true = false →
  Entry (root ++ dirs ++ [f]) false (S (level + length dirs)) f
    ∈ (walk root name level ic n).1.
Proof.
  induction dirs as [| d dirs IH]; intros n root name level ic f data Hat Hopen Hig.
  - apply opened_head in Hopen as [Hx Hroot].
    inversion Hat as [| items item child path data' Hin Hchild]; subst.
    inversion Hchild; subst. simpl. rewrite Nat.add_0_r.
    by eapply walk_entry_file.
  - pose proof (opened_head _ _ _ Hopen) as [Hx Hroot].
    apply opened_cons in Hopen.
    inversion Hat as [| items item child path data' Hin Hchild]; subst.
    destruct child as [? | sub].
    { inversion Hchild; subst. by destruct dirs. }
    eapply walk_entry_below; [done.. |].
    replace (root ++ (d :: dirs) ++ [f]) with ((root ++ [d]) ++ dirs ++ [f])
      by (by rewrite <- app_assoc).
    replace (S (level + length (d :: dirs)))
      with (S (S level + length dirs)) by (simpl; lia).
    eapply IH; [done.. |].
    by rewrite <- app_assoc.
Qed.

(** A directory the walk enters has its line. *)
Lemma dir_listed rest : ∀ n root name level ic,
  dir_at n rest →
  opened root name rest = true →
  Entry (root ++ rest) true (level + length rest) (default name (last rest))
    ∈ (walk root name level ic n).1.
Proof.
  induction rest as [| d rest IH]; intros n root name level ic Hat Hopen.
  - apply opened_head in Hopen as [Hx Hroot].
    inversion Hat; subst.
    rewrite app_nil_r, Nat.add_0_r, walk_dir, Hx, Hroot. cbv zeta. simpl.
    apply elem_of_cons. by left.
  - pose proof (opened_head _ _ _ Hopen) as [Hx Hroot].
    apply opened_cons in Hopen.
    inversion Hat as [| items item child path Hin Hchild]; subst.
    destruct child as [? | sub]; [by inversion Hchild |].
    eapply walk_entry_below; [done.. |].
    replace (root ++ d :: rest) with ((root ++ [d]) ++ rest)
      by (by rewrite <- app_assoc).
    replace (level + length (d :: rest))%nat
      with (S level + length rest)%nat by (simpl; lia).
    rewrite default_last_cons. by apply IH.
Qed.



(** Where a block comes from: a file the walk reaches, that is not binary,
    not ignored in the contents variant, and whose text is not blank. *)
Lemma block_origin n : ∀ root name level ic b,
  b ∈ (walk root name level ic n).2 →
  ∃ dirs f data,
    b_path b = root ++ dirs ++ [f]
    ∧ file_at n (dirs ++ [f]) data
    ∧ opened root name dirs = true
    ∧ ic = true
    ∧ is_binary data = false
    ∧ ign (b_path b) false = false
    ∧ b_text b = read_file_contents cd data
    ∧ PyStr.strip (b_text b) ≠ "".
Proof.
  induction n as [data | items IH] using node_tree_ind;
    intros root name level ic b Hb.
  - by apply elem_of_nil in Hb.
  - apply (walk_block_cases cd gi si sti ai) in Hb as (Hx & Hroot & [Hb | Hb]).
    + destruct Hb as (item & sub & Hin & Hb).
      rewrite Forall_forall in IH.
      apply (IH (item, Dir sub)) in Hb; [| done]. simpl in Hb.
      destruct Hb as (dirs & f & data & Hp & Hat & Hopen & Hrest).
      exists (item :: dirs), f, data.
      split; [by rewrite Hp, <- app_assoc |].
      split; [by econstructor |].
      split; [by rewrite opened_unfold | done].
    + destruct Hb as (item & data & Hin & -> & Hbin & Hig & Hs & ->).
      exists [], item, data. rewrite opened_unfold by done. simpl.
      split; [done |]. split; [| done].
      econstructor; [done | constructor].
Qed.


Lemma opened_names root name rest :
  opened root name rest = true →
  early_excluded name = false ∧ Forall (fun d => early_excluded d = false) rest.
Proof.
  revert root name. induction rest as [| d rest IH]; intros root name Hopen.
  - by apply opened_head in Hopen as [Hx _].
  - pose proof (opened_head _ _ _ Hopen) as [Hx _].
    apply opened_cons, IH in Hopen as [Hd Hrest].
    split; [done |]. by constructor.
Qed.
End WalkMore.

(** X1. The structure section has a line for the file [dirs/f] exactly
    when the tree has that file, the walk enters every directory above it
    (none is named [node_modules], [.git] or [dist], none is ignored in the
    structure variant, the project directory included) and the structure
    variant does not ignore the file itself. *)
Theorem X1_file_line_iff
    (cd : codecs) (gi si sti ai : list string) (project_name : string)
    (include_contents : bool) (items : list (string * node))
    (dirs : list string) (f : string) :
  (∃ e, e ∈ (traverse_directory cd gi si sti ai [] project_name 0
               include_contents (Dir items)).1
        ∧ e_path e = dirs ++ [f] ∧ e_dir e = false)
  ↔ (∃ data, file_at (Dir items) (dirs ++ [f]) data)
    ∧ dir_open (fun p => is_ignored p gi si sti ai true) [] project_name dirs
      = true
    ∧ is_ignored (dirs ++ [f]) gi si sti ai true = false.
Proof.
  split.
  - intros (e & He & Hp & Hd).
    apply entry_origin in He as (rest & Hrest & _ & _ & Hkind).
    rewrite Hd in Hkind. destruct Hkind as (dirs' & f' & data & -> & Hat & Hopen & Hig).
    simpl in Hrest. rewrite Hp in Hrest.
    apply app_inj_tail in Hrest as [-> ->].
    split; [by exists data |]. split; [done |].
    by rewrite Hp in Hig.
  - intros ([data Hat] & Hopen & Hig).
    exists (Entry ([] ++ dirs ++ [f]) false (S (0 + length dirs)) f).
    split; [| done].
    by apply (file_listed cd gi si sti ai dirs (Dir items) [] project_name 0
                include_contents f data).
Qed.

Lemma X1_witness :
  ∃ e, e ∈ (traverse_directory ascii_codecs ["a/b/"; "a\b\"] [] []
              (additional_ignore_patterns "proj") [] "proj" 0 true
              (Dir (scenario "a/b/" (list_byte_of_string "hello")))).1
       ∧ e_path e = ["a"; "b"] ++ ["c.txt"] ∧ e_dir e = false.
Proof.
  apply (X1_file_line_iff ascii_codecs ["a/b/"; "a\b\"] [] []
           (additional_ignore_patterns "proj") "proj" true
           (scenario "a/b/" (list_byte_of_string "hello")) ["a"; "b"] "c.txt").
  split; [| split; reflexivity].
  exists (list_byte_of_string "hello").
  repeat (econstructor; [repeat constructor |]). constructor.
Defined.

(** X2. The structure section has a line for the directory [dirs] exactly
    when the tree has that directory and the walk enters it and every
    directory above it. *)
Theorem X2_directory_line_iff
    (cd : codecs) (gi si sti ai : list string) (project_name : string)
    (include_contents : bool) (items : list (string * node))
    (dirs : list string) :
  (∃ e, e ∈ (traverse_directory cd gi si sti ai [] project_name 0
               include_contents (Dir items)).1
        ∧ e_path e = dirs ∧ e_dir e = true)
  ↔ dir_at (Dir items) dirs
    ∧ dir_open (fun p => is_ignored p gi si sti ai true) [] project_name dirs
      = true.
Proof.
  split.
  - intros (e & He & Hp & Hd).
    apply entry_origin in He as (rest & Hrest & _ & _ & Hkind).
    rewrite Hd in Hkind. simpl in Hrest. by rewrite <- Hp, Hrest.
  - intros [Hat Hopen].
    exists (Entry ([] ++ dirs) true (0 + length dirs)
              (default project_name (last dirs))).
    split; [| done].
    by apply (dir_listed cd gi si sti ai dirs (Dir items) [] project_name 0
                include_contents).
Qed.

Lemma X2_witness :
  ∃ e, e ∈ (traverse_directory ascii_codecs ["a/b"] [] []
              (additional_ignore_patterns "proj") [] "proj" 0 true
              (Dir (scenario "a/b" (list_byte_of_string "hello")))).1
       ∧ e_path e = ["a"] ∧ e_dir e = true.
Proof.
  apply (X2_directory_line_iff ascii_codecs ["a/b"] [] []
           (additional_ignore_patterns "proj") "proj" true
           (scenario "a/b" (list_byte_of_string "hello")) ["a"]).
  split; [| reflexivity].
  econstructor; [repeat constructor | constructor].
Defined.



(** X4. A line of the structure section is indented by the depth of its
    path below the project directory and shows the last component of that
    path, the name of the project directory for the first line. *)
Theorem X4_line_indent_and_name
    (cd : codecs) (gi si sti ai : list string) (project_name : string)
    (include_contents : bool) (items : list (string * node)) (e : entry) :
  e ∈ (traverse_directory cd gi si sti ai [] project_name 0
         include_contents (Dir items)).1 →
  e_level e = length (e_path e)
  ∧ e_name e = default project_name (last (e_path e))
  ∧ render_entry e
    = PyStr.repeat_str "  " (length (e_path e)) +:+ "- "
      +:+ default project_name (last (e_path e))
      +:+ (if e_dir e then "/" else "") +:+ nl.
Proof.
  intros He. apply entry_origin in He as (rest & Hrest & Hl & Hn & _).
  simpl in Hrest, Hl. rewrite <- Hrest in Hl, Hn.
  unfold render_entry. by rewrite Hl, Hn.
Qed.

Lemma X4_witness :
  Entry ["a"; "b"; "c.txt"] false 3 "c.txt"
    ∈ (traverse_directory ascii_codecs ["a/b/"; "a\b\"] [] []
         (additional_ignore_patterns "proj") [] "proj" 0 true
         (Dir (scenario "a/b/" (list_byte_of_string "hello")))).1
  ∧ render_entry (Entry ["a"; "b"; "c.txt"] false 3 "c.txt")
    = "      - c.txt" +:+ nl.
Proof.
  assert (H : Entry ["a"; "b"; "c.txt"] false 3 "c.txt"
    ∈ (traverse_directory ascii_codecs ["a/b/"; "a\b\"] [] []
         (additional_ignore_patterns "proj") [] "proj" 0 true
         (Dir (scenario "a/b/" (list_byte_of_string "hello")))).1).
  { vm_compute. repeat constructor. }
  split; [exact H |].
  by rewrite (proj2 (proj2 (X4_line_indent_and_name _ _ _ _ _ _ _ _ _ H))).
Defined.

(** X5. Nothing of the document lies in a directory named [node_modules],
    [.git] or [dist]: no directory on the path of a line (the directory
    itself, for the line of a directory) and none on the path of a block
    bears one of these names, and neither does the project directory as
    soon as the document has a line or a block.  The ignore patterns play
    no part in it; a file of such a name is not concerned. *)
Theorem X5_excluded_directory_names
    (cd : codecs) (gi si sti ai : list string) (project_name : string)
    (include_contents : bool) (items : list (string * node)) :
  (∀ e, e ∈ (traverse_directory cd gi si sti ai [] project_name 0
               include_contents (Dir items)).1 →
        (project_name ∉ ["node_modules"; ".git"; "dist"])
        ∧ Forall (fun d => d ∉ ["node_modules"; ".git"; "dist"])
            (if e_dir e then e_path e else removelast (e_path e)))
  ∧ (∀ b, b ∈ (traverse_directory cd gi si sti ai [] project_name 0
                 include_contents (Dir items)).2 →
          (project_name ∉ ["node_modules"; ".git"; "dist"])
          ∧ Forall (fun d => d ∉ ["node_modules"; ".git"; "dist"])
              (removelast (b_path b))).
Proof.
  assert (Hnames : ∀ dirs,
    dir_open (fun p => ignored gi si sti ai p true) [] project_name dirs = true →
    (project_name ∉ ["node_modules"; ".git"; "dist"])
    ∧ Forall (fun d => d ∉ ["node_modules"; ".git"; "dist"]) dirs).
  { intros dirs [Hx Hall]%opened_names. split.
    - by apply bool_decide_eq_false in Hx.
    - eapply Forall_impl; [exact Hall |].
      intros d Hd. by apply bool_decide_eq_false in Hd. }
  split.
  - intros e He. apply entry_origin in He as (rest & Hrest & _ & _ & Hkind).
    simpl in Hrest. rewrite Hrest. destruct (e_dir e).
    + destruct Hkind as [_ Hopen]. by apply Hnames.
    + destruct Hkind as (dirs & f & data & -> & _ & Hopen & _).
      rewrite removelast_last. by apply Hnames.
  - intros b Hb. apply block_origin in Hb as (dirs & f & data & Hrest & _ & Hopen & _).
    simpl in Hrest. rewrite Hrest, removelast_last. by apply Hnames.
Qed.

Lemma X5_witness :
  Forall (fun d => d ∉ ["node_modules"; ".git"; "dist"])
    (removelast (e_path (Entry ["a"; "b"; "c.txt"] false 3 "c.txt"))).
Proof.
  apply (proj1 (X5_excluded_directory_names ascii_codecs ["a/b/"; "a\b\"] [] []
           (additional_ignore_patterns "proj") "proj" true
           (scenario "a/b/" (list_byte_of_string "hello")))
           (Entry ["a"; "b"; "c.txt"] false 3 "c.txt")).
  vm_compute. repeat constructor.
Defined.

(** ** What patterns mean *)

Lemma wildcard_free_spec p :
  wildcard_free p = true ↔
  PyStr.contains "*" p = false ∧ PyStr.contains "?" p = false
  ∧ PyStr.contains "[" p = false ∧ PyStr.contains "\" p = false.
Proof.
  unfold wildcard_free. rewrite !andb_true_iff, !negb_true_iff.
  split; [intros [[[? ?] ?] ?] | intros (? & ? & ? & ?)]; auto.
Qed.

Lemma pattern_matches_literal rel p :
  wildcard_free p = true →
  pattern_matches rel p = String.eqb rel p || String.eqb ("/" +:+ rel) p.
Proof.
  intros (Hstar & Hany & Hbr & Hbs)%wildcard_free_spec.
  unfold pattern_matches, matches_either.
  rewrite replace_backslash_plain, no_star_no_globstar by done.
  by rewrite !fnmatch_literal.
Qed.

(** X6. When no pattern of the rule set in force has a wildcard or a
    backslash, a path is ignored exactly when its normalized relative
    path, as it is or with a slash in front, is one of the patterns: a
    pattern names one path from the project directory, not every item of
    that name. *)
Theorem X6_literal_patterns_name_one_path
    (gi si sti ai : list string) (path : list string) (check_structure : bool) :
  Forall (fun p => wildcard_free p = true)
    (gi ++ ai ++ (if check_structure then sti else si)) →
  is_ignored path gi si sti ai check_structure = true
  ↔ relative_path path ∈ gi ++ ai ++ (if check_structure then sti else si)
    ∨ "/" +:+ relative_path path
        ∈ gi ++ ai ++ (if check_structure then sti else si).
Proof.
  intros Hplain. rewrite Forall_forall in Hplain.
  rewrite is_ignored_exists. unfold relative_path. split.
  - intros (p & Hin & Hm).
    rewrite pattern_matches_literal in Hm by auto.
    apply orb_true_iff in Hm as [->%String.eqb_eq | ->%String.eqb_eq]; auto.
  - intros [Hin | Hin]; eexists; (split; [exact Hin |]);
      rewrite pattern_matches_literal by auto;
      rewrite String.eqb_refl; [done | apply orb_true_r].
Qed.

Lemma X6_witness :
  Forall (fun p => wildcard_free p = true)
    ([] ++ additional_ignore_patterns "proj" ++ [])
  ∧ (is_ignored ["sub"; ".git"] [] [] []
       (additional_ignore_patterns "proj") true = true
     ↔ relative_path ["sub"; ".git"]
         ∈ [] ++ additional_ignore_patterns "proj" ++ []
       ∨ "/" +:+ relative_path ["sub"; ".git"]
           ∈ [] ++ additional_ignore_patterns "proj" ++ []).
Proof.
  assert (H : Forall (fun p => wildcard_free p = true)
                ([] ++ additional_ignore_patterns "proj" ++ [])).
  { unfold additional_ignore_patterns. simpl. repeat constructor. }
  split; [exact H |].
  exact (X6_literal_patterns_name_one_path [] [] []
           (additional_ignore_patterns "proj") ["sub"; ".git"] true H).
Defined.

Lemma startswith_other_head lit c s :
  lit ≠ "" → PyStr.contains (String c "") lit = false →
  PyStr.startswith lit (String c s) = false.
Proof.
  destruct lit as [| x lit]; [done |]. intros _.
  rewrite contains_char_cons. intros [Hx _]%orb_false_iff.
  cbn [PyStr.startswith]. by rewrite Ascii.eqb_sym, Hx.
Qed.

Lemma globstar_prefix_deleted lit :
  PyStr.contains "/" lit = false →
  PyStr.replace "**/" "" ("**/" +:+ lit) = lit.
Proof.
  intros Hlit.
  change (PyStr.replace "**/" "" ("**/" +:+ lit))
    with (PyStr.replace "**/" "" lit).
  by apply replace_globstar_plain.
Qed.

(** X7. A pattern [**/name], where [name] is a non-empty text without
    wildcard, slash or backslash, ignores exactly the paths whose
    normalized relative path contains [name] somewhere: it is a substring
    test, not a test on whole path components. *)
Theorem X7_globstar_is_substring_test
    (name : string) (path : list string) (check_structure : bool) :
  wildcard_free name = true →
  PyStr.contains "/" name = false →
  name ≠ "" →
  is_ignored path ["**/" +:+ name] [] [] [] check_structure
  = PyStr.contains name (relative_path path).
Proof.
  intros (Hstar & Hany & Hbr & Hbs)%wildcard_free_spec Hsl Hne.
  assert (Hm : pattern_matches (relative_path path) ("**/" +:+ name)
               = PyStr.contains name (relative_path path)).
  { unfold pattern_matches, matches_either.
    rewrite replace_backslash_plain
      by (by rewrite contains_char_app, Hbs).
    change (PyStr.contains "**" ("**/" +:+ name)) with true. cbv iota.
    unfold rewrite_globstar.
    rewrite globstar_prefix_deleted, strip_slash_plain by done.
    rewrite !fnmatch_wrapped_substring by done.
    change ("/" +:+ relative_path path) with (String "/" (relative_path path)).
    cbn [PyStr.contains].
    rewrite startswith_other_head by done. simpl. apply orb_diag. }
  unfold is_ignored. fold (relative_path path).
  destruct check_structure; simpl; by rewrite Hm, orb_false_r.
Qed.

Lemma X7_witness :
  wildcard_free "log" = true
  ∧ PyStr.contains "/" "log" = false
  ∧ "log" ≠ ""
  ∧ is_ignored ["src"; "catalog.py"] ["**/log"] [] [] [] true = true.
Proof.
  assert (Hne : "log" ≠ "") by done.
  repeat (split; [done |]).
  exact (X7_globstar_is_substring_test "log" ["src"; "catalog.py"] true
           eq_refl eq_refl Hne).
Defined.

Lemma endswith_empty s : PyStr.endswith "" s = true.
Proof.
  induction s as [| c s IH]; [reflexivity |].
  cbn [PyStr.endswith]. rewrite IH. apply orb_true_r.
Qed.

Lemma fnmatch_star_suffix lit s :
  PyStr.contains "*" lit = false →
  PyStr.contains "?" lit = false →
  PyStr.contains "[" lit = false →
  Fnmatch.fnmatch s ("*" +:+ lit) = PyStr.endswith lit s.
Proof.
  intros Hstar Hany Hbr.
  pose proof (fun s => fnmatch_literal lit s Hstar Hany Hbr) as Hlit.
  unfold Fnmatch.fnmatch, Fnmatch.translate in *.
  change (Fnmatch.translate_from 0 ("*" +:+ lit))
    with (Fnmatch.star_cons (Fnmatch.translate_from 0 lit)).
  destruct lit as [| c lit].
  - change (Fnmatch.star_cons (Fnmatch.translate_from 0 ""))
      with [Fnmatch.TStar].
    by rewrite tmatch_star_all, endswith_empty.
  - assert (Hcons : Fnmatch.star_cons (Fnmatch.translate_from 0 (String c lit))
                    = Fnmatch.TStar :: Fnmatch.translate_from 0 (String c lit)).
    { rewrite contains_char_cons in Hstar, Hany, Hbr.
      apply orb_false_iff in Hstar as [Hc1 _].
      apply orb_false_iff in Hany as [Hc2 _].
      apply orb_false_iff in Hbr as [Hc3 _].
      rewrite Ascii.eqb_sym in Hc1, Hc2, Hc3.
      cbn [Fnmatch.translate_from]. by rewrite Hc1, Hc2, Hc3. }
    rewrite Hcons.
    induction s as [| x s IH].
    + rewrite tmatch_star, Hlit. reflexivity.
    + rewrite tmatch_star, Hlit, IH. reflexivity.
Qed.

Lemma single_star_no_globstar lit :
  PyStr.contains "*" lit = false → PyStr.contains "**" ("*" +:+ lit) = false.
Proof.
  intros Hstar.
  change ("*" +:+ lit) with (String "*" lit). cbn [PyStr.contains PyStr.startswith].
  rewrite no_star_no_globstar by done.
  destruct lit as [| c lit]; [reflexivity |].
  rewrite contains_char_cons in Hstar. apply orb_false_iff in Hstar as [Hc _].
  cbn [PyStr.startswith]. by rewrite Hc.
Qed.

(** X8. A pattern [*suffix], where [suffix] has no wildcard and no
    backslash, ignores exactly the paths which, written with a slash in
    front, end in [suffix]: the star also runs over slashes, so the file
    is ignored at any depth. *)
Theorem X8_star_crosses_directories
    (suffix : string) (path : list string) (check_structure : bool) :
  wildcard_free suffix = true →
  is_ignored path ["*" +:+ suffix] [] [] [] check_structure
  = PyStr.endswith suffix ("/" +:+ relative_path path).
Proof.
  intros (Hstar & Hany & Hbr & Hbs)%wildcard_free_spec.
  assert (Hm : pattern_matches (relative_path path) ("*" +:+ suffix)
               = PyStr.endswith suffix ("/" +:+ relative_path path)).
  { unfold pattern_matches, matches_either.
    rewrite replace_backslash_plain
      by (by rewrite contains_char_app, Hbs).
    rewrite single_star_no_globstar by done.
    rewrite !fnmatch_star_suffix by done.
    change ("/" +:+ relative_path path) with (String "/" (relative_path path)).
    cbn [PyStr.endswith].
    by destruct (PyStr.endswith suffix (relative_path path));
      rewrite ?orb_true_r. }
  unfold is_ignored. fold (relative_path path).
  destruct check_structure; simpl; by rewrite Hm, orb_false_r.
Qed.

Lemma X8_witness :
  wildcard_free ".txt" = true
  ∧ is_ignored ["a"; "b"; "c.txt"] ["*.txt"] [] [] [] false = true.
Proof.
  split; [done |].
  exact (X8_star_crosses_directories ".txt" ["a"; "b"; "c.txt"] false eq_refl).
Defined.

Lemma endswith_slash_split q :
  PyStr.endswith "/" q = true → ∃ lit, q = lit +:+ "/".
Proof.
  induction q as [| c q IH]; [done |].
  cbn [PyStr.endswith]. intros [Heq | Hq]%orb_true_iff.
  - apply String.eqb_eq in Heq as ->. by exists "".
  - destruct (IH Hq) as [lit ->]. by exists (String c lit).
Qed.

Lemma normalized_no_backslash p :
  PyStr.contains "\" (PyStr.replace "\" "/" p) = false.
Proof.
  induction p as [| c p IH]; [reflexivity |].
  rewrite replace_char_cons, contains_char_cons, IH, orb_false_r.
  destruct (Ascii.eqb "\" c) eqn:Hc; [reflexivity | done].
Qed.

Lemma directory_pattern_dead rel p :
  directory_pattern p = true →
  rel ≠ "" → PyStr.endswith "/" rel = false →
  pattern_matches rel p = false.
Proof.
  unfold directory_pattern. rewrite !andb_true_iff, !negb_true_iff.
  intros [[[Hend Hstar] Hany] Hbr] Hne Hrel.
  rewrite <- pattern_matches_normalized.
  pose proof (normalized_no_backslash p) as Hbs.
  destruct (endswith_slash_split _ Hend) as [lit Hlit].
  rewrite Hlit in Hstar, Hany, Hbr, Hbs |- *.
  rewrite contains_char_app in Hstar, Hany, Hbr, Hbs.
  apply orb_false_iff in Hstar as [Hstar _], Hany as [Hany _],
    Hbr as [Hbr _], Hbs as [Hbs _].
  by apply trailing_slash_matches_nothing.
Qed.

Lemma existsb_filter_dead {A} (f keep : A → bool) (l : list A) :
  (∀ x, keep x = false → f x = false) →
  existsb f (List.filter keep l) = existsb f l.
Proof.
  intros Hdead. induction l as [| x l IH]; [done |]. simpl.
  destruct (keep x) eqn:Hk; simpl; rewrite IH; [done |].
  by rewrite Hdead.
Qed.

(** X9. Patterns written the way a directory is in a version-control
    ignore file, wildcard-free and ending in a slash (or in a backslash,
    which is normalized), have no effect: dropping them from the four
    pattern lists changes the decision for no item whose name is not
    empty and ends in no separator. *)
Theorem X9_directory_patterns_have_no_effect
    (gi si sti ai : list string) (path : list string) (check_structure : bool) :
  (∀ c, last path = Some c →
     c ≠ "" ∧ PyStr.endswith "/" c = false ∧ PyStr.endswith "\" c = false) →
  is_ignored path gi si sti ai check_structure
  = is_ignored path
      (List.filter (fun p => negb (directory_pattern p)) gi)
      (List.filter (fun p => negb (directory_pattern p)) si)
      (List.filter (fun p => negb (directory_pattern p)) sti)
      (List.filter (fun p => negb (directory_pattern p)) ai)
      check_structure.
Proof.
  intros [Hne Hend]%relative_path_end. unfold is_ignored.
  destruct check_structure; rewrite <- !List.filter_app;
    symmetry; apply existsb_filter_dead;
    intros p Hp%negb_false_iff; by apply directory_pattern_dead.
Qed.

Lemma X9_witness :
  is_ignored ["node_modules"] ["node_modules/"; "build\"; "*.log"] [] []
    (additional_ignore_patterns "proj") true
  = is_ignored ["node_modules"] ["*.log"] [] []
      (additional_ignore_patterns "proj") true.
Proof.
  apply (X9_directory_patterns_have_no_effect
           ["node_modules/"; "build\"; "*.log"] [] []
           (additional_ignore_patterns "proj") ["node_modules"] true).
  intros c [= <-]. by vm_compute.
Defined.

(** X10. Patterns only ever add exclusions: a path ignored under some
    pattern lists is ignored under any lists that hold at least the same
    patterns.  No line of an ignore file, a line starting with [!]
    included, brings an ignored path back. *)
Theorem X10_more_patterns_ignore_more
    (gi si sti ai gi' si' sti' ai' : list string) (path : list string)
    (check_structure : bool) :
  gi ⊆ gi' → si ⊆ si' → sti ⊆ sti' → ai ⊆ ai' →
  is_ignored path gi si sti ai check_structure = true →
  is_ignored path gi' si' sti' ai' check_structure = true.
Proof.
  intros Hgi Hsi Hsti Hai. rewrite !is_ignored_exists.
  intros (p & Hin & Hm). exists p. split; [| done].
  rewrite !elem_of_app in Hin |- *.
  destruct check_structure; destruct Hin as [? | [? | ?]]; auto.
Qed.

Lemma X10_witness :
  is_ignored ["notes.txt"] ["*.txt"; "!notes.txt"] [] [] [] true = true.
Proof.
  apply (X10_more_patterns_ignore_more ["*.txt"] [] [] []
           ["*.txt"; "!notes.txt"] [] [] [] ["notes.txt"] true);
    try done.
  intros p Hp. apply elem_of_cons. by left;
    apply list_elem_of_singleton in Hp.
Defined.

(** X11. When a pattern of the structure rule set matches the relative
    path [.] of the project directory, as [*], [.*] and [?] do, the walk
    stops before its first line: the document has no line and no block. *)
Theorem X11_pattern_matching_dot_empties_document
    (cd : codecs) (gi si sti ai : list string) (project_name : string)
    (level : nat) (include_contents : bool) (items : list (string * node))
    (pattern : string) :
  pattern ∈ gi ++ ai ++ sti →
  pattern_matches "." pattern = true →
  traverse_directory cd gi si sti ai [] project_name level include_contents
    (Dir items) = ([], []).
Proof.
  intros Hin Hm.
  assert (Hroot : ignored gi si sti ai [] true = true).
  { apply is_ignored_exists. by exists pattern. }
  rewrite walk_dir, Hroot. by destruct (early_excluded project_name).
Qed.

Lemma X11_witness :
  pattern_matches "." "*" = true
  ∧ pattern_matches "." ".*" = true
  ∧ pattern_matches "." "?" = true
  ∧ traverse_directory ascii_codecs [".*"] [] []
      (additional_ignore_patterns "proj") [] "proj" 0 true
      (Dir notes_project) = ([], []).
Proof.
  repeat (split; [reflexivity |]).
  apply (X11_pattern_matching_dot_empties_document ascii_codecs [".*"] [] []
           (additional_ignore_patterns "proj") "proj" 0 true notes_project ".*").
  - apply elem_of_app. left. by apply list_elem_of_singleton.
  - reflexivity.
Defined.

(** X12. When the name of the project directory has no [[], no slash and
    no backslash, the document never takes in the document of an earlier
    run: the file [{project_name}_project_summary.md] of the project
    directory has no line and no block, whatever the ignore files hold. *)
Theorem X12_document_excludes_itself
    (cd : codecs) (gi si sti : list string) (project_name : string)
    (level : nat) (include_contents : bool) (items : list (string * node)) :
  PyStr.contains "[" project_name = false →
  PyStr.contains "/" project_name = false →
  PyStr.contains "\" project_name = false →
  (∀ e, e ∈ (traverse_directory cd gi si sti
               (additional_ignore_patterns project_name) [] project_name
               level include_contents (Dir items)).1 →
        e_path e ≠ [output_name project_name])
  ∧ (∀ b, b ∈ (traverse_directory cd gi si sti
                 (additional_ignore_patterns project_name) [] project_name
                 level include_contents (Dir items)).2 →
          b_path b ≠ [output_name project_name]).
Proof.
  intros Hbr Hsl Hbs. split.
  - intros e He Hp.
    apply entries_not_ignored in He as (rest & Hrest & Hk).
    simpl in Hrest. rewrite Hp in Hrest. subst rest.
    specialize (Hk [output_name project_name] (reflexivity _)).
    simpl in Hk. unfold ignored, output_name in Hk.
    by rewrite summary_file_ignored in Hk.
  - intros b Hb Hp.
    apply blocks_origin in Hb as (rest & data & _ & _ & _ & _ & Hig & _).
    rewrite Hp in Hig. unfold ignored, output_name in Hig.
    by rewrite summary_file_ignored in Hig.
Qed.

Lemma X12_witness :
  PyStr.contains "[" "proj" = false
  ∧ PyStr.contains "/" "proj" = false
  ∧ PyStr.contains "\" "proj" = false
  ∧ e_path (Entry [] true 0 "proj") ≠ [output_name "proj"].
Proof.
  repeat (split; [reflexivity |]).
  apply (proj1 (X12_document_excludes_itself ascii_codecs [] [] [] "proj" 0
                  true [("proj_project_summary.md", text_file "# proj")]
                  eq_refl eq_refl eq_refl)).
  vm_compute. repeat constructor.
Defined.

(** ** The order of a listing *)

Lemma leb_total a : ∀ b, PyStr.leb a b = false → PyStr.leb b a = true.
Proof.
  induction a as [| x a IH]; intros [| y b]; simpl; try done.
  intros H. apply orb_false_iff in H as [Hlt H].
  apply Nat.ltb_ge in Hlt.
  destruct (Nat.ltb_spec (nat_of_ascii y) (nat_of_ascii x)) as [| Hge]; [done |].
  assert (Heq : nat_of_ascii x = nat_of_ascii y) by lia.
  rewrite Heq, Nat.eqb_refl in H |- *. simpl in *. by apply IH.
Qed.

Lemma leb_trans a : ∀ b c,
  PyStr.leb a b = true → PyStr.leb b c = true → PyStr.leb a c = true.
Proof.
  induction a as [| x a IH]; intros [| y b] [| z c]; simpl; try done.
  intros Hab Hbc.
  apply orb_true_iff in Hab as [Hab | Hab], Hbc as [Hbc | Hbc].
  - apply Nat.ltb_lt in Hab, Hbc. apply orb_true_iff. left.
    apply Nat.ltb_lt. lia.
  - apply Nat.ltb_lt in Hab. apply andb_true_iff in Hbc as [Hyz _].
    apply Nat.eqb_eq in Hyz. apply orb_true_iff. left.
    apply Nat.ltb_lt. lia.
  - apply Nat.ltb_lt in Hbc. apply andb_true_iff in Hab as [Hxy _].
    apply Nat.eqb_eq in Hxy. apply orb_true_iff. left.
    apply Nat.ltb_lt. lia.
  - apply andb_true_iff in Hab as [Hxy Hab], Hbc as [Hyz Hbc].
    apply Nat.eqb_eq in Hxy, Hyz. apply orb_true_iff. right.
    rewrite Hxy, Hyz, Nat.eqb_refl. simpl. by eapply IH.
Qed.

Section SortedMore.
Context {A : Type}.
Implicit Types (x y : string * A) (l : list (string * A)).

Lemma insert_by_name_sorted y l : by_name l → by_name (insert_by_name y l).
Proof.
  unfold by_name. induction 1 as [| z l Hl IH Hz]; simpl.
  - repeat constructor.
  - destruct (PyStr.leb z.1 y.1) eqn:Hzy.
    + constructor; [done |].
      rewrite (insert_by_name_perm y l). by constructor.
    + apply leb_total in Hzy. constructor; [by constructor |].
      constructor; [done |].
      eapply Forall_impl; [exact Hz |]. intros w Hw. by eapply leb_trans.
Qed.

Lemma sorted_by_name_sorted l : by_name (sorted_by_name l).
Proof.
  unfold sorted_by_name.
  assert (H : ∀ acc, by_name acc →
            by_name (foldl (fun acc x => insert_by_name x acc) acc l)).
  { induction l as [| x l IH]; intros acc Hacc; simpl; [done |].
    by apply IH, insert_by_name_sorted. }
  apply H. constructor.
Qed.

Variable keep : string * A → bool.

Lemma filter_insert_kept y l :
  by_name l → keep y = true →
  List.filter keep (insert_by_name y l) = insert_by_name y (List.filter keep l).
Proof.
  unfold by_name. intros Hl Hy.
  induction Hl as [| z l Hl IH Hz]; simpl; [by rewrite Hy |].
  destruct (PyStr.leb z.1 y.1) eqn:Hzy; simpl.
  - rewrite IH. destruct (keep z); simpl; [by rewrite Hzy | done].
  - rewrite Hy.
    assert (Hhead : ∀ k, Forall (fun w => PyStr.leb z.1 w.1 = true) k →
              insert_by_name y (List.filter keep k) = y :: List.filter keep k).
    { intros k Hk. induction Hk as [| w k Hw Hk IHk]; simpl; [done |].
      destruct (keep w); simpl; [| done].
      destruct (PyStr.leb w.1 y.1) eqn:Hwy; [| done].
      by rewrite (leb_trans _ _ _ Hw Hwy) in Hzy. }
    destruct (keep z); simpl.
    + by rewrite Hzy.
    + symmetry. by apply Hhead.
Qed.

Lemma filter_insert_dropped y l :
  keep y = false →
  List.filter keep (insert_by_name y l) = List.filter keep l.
Proof.
  intros Hy. induction l as [| z l IH]; simpl; [by rewrite Hy |].
  destruct (PyStr.leb z.1 y.1); simpl.
  - rewrite IH. done.
  - by rewrite Hy.
Qed.

Lemma by_name_filter l : by_name l → by_name (List.filter keep l).
Proof.
  unfold by_name. induction 1 as [| z l Hl IH Hz]; simpl; [constructor |].
  destruct (keep z); [| done]. constructor; [done |].
  rewrite Forall_forall in Hz |- *. intros w Hw.
  apply Hz. apply list_elem_of_In, filter_In in Hw as [Hw _].
  by apply list_elem_of_In.
Qed.

(** Sorting and then dropping items is dropping them and then sorting. *)
Lemma filter_sorted_by_name l :
  List.filter keep (sorted_by_name l) = sorted_by_name (List.filter keep l).
Proof.
  unfold sorted_by_name.
  assert (H : ∀ acc, by_name acc →
    List.filter keep (foldl (fun acc x => insert_by_name x acc) acc l)
    = foldl (fun acc x => insert_by_name x acc) (List.filter keep acc)
        (List.filter keep l)).
  { induction l as [| x l IH]; intros acc Hacc; simpl; [done |].
    rewrite IH by (by apply insert_by_name_sorted).
    destruct (keep x) eqn:Hx; simpl.
    - by rewrite filter_insert_kept.
    - by rewrite filter_insert_dropped. }
  apply (H []). constructor.
Qed.
End SortedMore.

(** ** Running the summarizer again *)

Lemma gather_cons r (rs : list (string * (list entry * list block))) :
  gather (r :: rs) = (r.2.1 ++ (gather rs).1, r.2.2 ++ (gather rs).2).
Proof. reflexivity. Qed.

Lemma gather_filter_silent {A} (visit : string * A → list entry * list block)
    (keep : string * A → bool) (l : list (string * A)) :
  (∀ f, keep f = false → visit f = ([], [])) →
  gather ((fun f => (f.1, visit f)) <$> List.filter keep l)
  = gather ((fun f => (f.1, visit f)) <$> l).
Proof.
  intros Hsilent. induction l as [| f l IH]; [done |].
  cbn [List.filter]. destruct (keep f) eqn:Hf.
  - by rewrite !fmap_cons, !gather_cons, IH.
  - rewrite fmap_cons, gather_cons, IH. cbn [fst snd].
    rewrite (Hsilent f Hf). simpl. by destruct (gather _).
Qed.

Lemma files_app l1 l2 : files (l1 ++ l2) = files l1 ++ files l2.
Proof. unfold files. by rewrite flat_map_app. Qed.

Lemma subdirs_app {A} (f : string → node → A) l1 l2 :
  subdirs f (l1 ++ l2) = subdirs f l1 ++ subdirs f l2.
Proof. unfold subdirs. by rewrite flat_map_app. Qed.

Lemma lookup_item_other name f data l1 l2 :
  f ≠ name →
  lookup_item name (l1 ++ (f, File data) :: l2) = lookup_item name (l1 ++ l2).
Proof.
  intros Hne. unfold lookup_item. f_equal.
  induction l1 as [| [nm c] l1 IH]; simpl.
  - by apply String.eqb_neq in Hne as ->.
  - by rewrite IH.
Qed.

Lemma output_name_not_ignore_file project_name name :
  name ∈ [".gitignore"; ".summaryignore"; ".summarystructureignore"] →
  output_name project_name ≠ name.
Proof.
  intros Hin Heq.
  pose proof (endswith_app project_name "_project_summary.md") as Hend.
  fold (output_name project_name) in Hend. rewrite Heq in Hend.
  repeat (apply elem_of_cons in Hin as [-> | Hin]; [done |]).
  by apply elem_of_nil in Hin.
Qed.

(** A file that both variants ignore can be added to the project
    directory, or have its contents changed, without changing what the
    walk returns. *)
Lemma walk_without_ignored_file cd gi si sti ai name level ic l1 l2 f data :
  is_ignored [f] gi si sti ai true = true →
  is_ignored [f] gi si sti ai false = true →
  traverse_directory cd gi si sti ai [] name level ic
    (Dir (l1 ++ (f, File data) :: l2))
  = traverse_directory cd gi si sti ai [] name level ic (Dir (l1 ++ l2)).
Proof.
  intros Hs Hc. rewrite !walk_dir.
  destruct (early_excluded name); [done |].
  destruct (ignored gi si sti ai [] true); [done |]. cbv zeta.
  set (keep := fun it : string * list byte => negb (String.eqb it.1 f)).
  assert (Hsilent : ∀ it, keep it = false →
    visit_file cd gi si sti ai [] level ic it.1 it.2 = ([], [])).
  { intros [nm d] Hk. apply negb_false_iff, String.eqb_eq in Hk. simpl in Hk.
    subst nm. unfold visit_file, ignored. simpl. rewrite Hs, Hc. simpl.
    by destruct (ic && negb (is_binary d)). }
  assert (Hhere : ∀ l,
    gather ((fun it => (it.1, visit_file cd gi si sti ai [] level ic it.1 it.2))
              <$> sorted_by_name l)
    = gather ((fun it => (it.1, visit_file cd gi si sti ai [] level ic it.1 it.2))
                <$> sorted_by_name (List.filter keep l))).
  { intros l. rewrite <- filter_sorted_by_name.
    by rewrite (gather_filter_silent
                  (fun it => visit_file cd gi si sti ai [] level ic it.1 it.2)
                  keep). }
  rewrite (Hhere (files (l1 ++ (f, File data) :: l2))), (Hhere (files (l1 ++ l2))).
  rewrite !files_app, !List.filter_app.
  change (files ((f, File data) :: l2)) with ((f, data) :: files l2).
  assert (Hkf : keep (f, data) = false).
  { unfold keep. simpl. by rewrite String.eqb_refl. }
  cbn [List.filter]. rewrite Hkf.
  rewrite !subdirs_app.
  by change (subdirs
               (fun item child =>
                  traverse_directory cd gi si sti ai ([] ++ [item]) item
                    (S level) ic child) ((f, File data) :: l2))
    with (subdirs
            (fun item child =>
               traverse_directory cd gi si sti ai ([] ++ [item]) item
                 (S level) ic child) l2).
Qed.

(** X13. When the name of the project directory has no [[], no slash and
    no backslash, the document does not depend on a document of an
    earlier run lying in the project directory, whatever its contents:
    the run returns the same text with and without it, so that running the
    summarizer again over its own output writes the same document. *)
Theorem X13_rerun_gives_same_document
    (cd : codecs) (project_name : string) (items1 items2 : list (string * node))
    (data : list byte) :
  PyStr.contains "[" project_name = false →
  PyStr.contains "/" project_name = false →
  PyStr.contains "\" project_name = false →
  generate_project_summary cd project_name
    (items1 ++ (output_name project_name, File data) :: items2)
  = generate_project_summary cd project_name (items1 ++ items2).
Proof.
  intros Hbr Hsl Hbs.
  assert (Hread : ∀ name,
    name ∈ [".gitignore"; ".summaryignore"; ".summarystructureignore"] →
    read_ignore_file cd name
      (items1 ++ (output_name project_name, File data) :: items2)
    = read_ignore_file cd name (items1 ++ items2)).
  { intros name Hname. unfold read_ignore_file.
    by rewrite lookup_item_other by (by apply output_name_not_ignore_file). }
  unfold generate_project_summary, summarize,
    read_gitignore, read_summaryignore, read_structureignore.
  rewrite !Hread by (apply (bool_decide_unpack _); by vm_compute).
  destruct (read_ignore_file cd ".gitignore" (items1 ++ items2)) as [gi |];
    [| done].
  destruct (read_ignore_file cd ".summaryignore" (items1 ++ items2)) as [si |];
    [| done].
  destruct (read_ignore_file cd ".summarystructureignore" (items1 ++ items2))
    as [sti |]; [| done].
  cbn [mbind option_bind].
  by rewrite walk_without_ignored_file
    by (unfold output_name; by apply summary_file_ignored).
Qed.

Lemma X13_witness :
  generate_project_summary ascii_codecs "proj"
    ([("notes.txt", text_file "draft")]
     ++ (output_name "proj", File (list_byte_of_string "# proj"))
     :: [("zeta.txt", text_file "omega")])
  = generate_project_summary ascii_codecs "proj"
      ([("notes.txt", text_file "draft")] ++ [("zeta.txt", text_file "omega")]).
Proof.
  apply (X13_rerun_gives_same_document ascii_codecs "proj"
           [("notes.txt", text_file "draft")] [("zeta.txt", text_file "omega")]
           (list_byte_of_string "# proj"));
    reflexivity.
Defined.

(** ** The order of the walk *)

Lemma insert_by_name_fmap {A B} (g : string * A → B) (x : string * A) l :
  insert_by_name (x.1, g x) ((fun y => (y.1, g y)) <$> l)
  = (fun y => (y.1, g y)) <$> insert_by_name x l.
Proof.
  induction l as [| z l IH]; [done |]. simpl.
  destruct (PyStr.leb z.1 x.1); [| done].
  rewrite fmap_cons. f_equal. exact IH.
Qed.

Lemma sorted_by_name_fmap {A B} (g : string * A → B) (l : list (string * A)) :
  sorted_by_name ((fun y => (y.1, g y)) <$> l)
  = (fun y => (y.1, g y)) <$> sorted_by_name l.
Proof.
  unfold sorted_by_name.
  assert (H : ∀ acc,
    foldl (fun acc x => insert_by_name x acc) ((fun y => (y.1, g y)) <$> acc)
      ((fun y => (y.1, g y)) <$> l)
    = (fun y => (y.1, g y)) <$> foldl (fun acc x => insert_by_name x acc) acc l).
  { induction l as [| x l IH]; intros acc; [done |].
    rewrite fmap_cons. cbn [foldl].
    by rewrite (insert_by_name_fmap g x acc), IH. }
  apply (H []).
Qed.

Lemma subdirs_directories {A} (f : string → node → A) items :
  subdirs f items = (fun d => (d.1, f d.1 d.2)) <$> directories items.
Proof.
  unfold directories, subdirs.
  induction items as [| [nm [data | sub]] items IH]; simpl; [done | done |].
  by rewrite IH.
Qed.

Lemma elem_of_directories items d :
  d ∈ directories items ↔ ∃ sub, d = (d.1, Dir sub) ∧ (d.1, Dir sub) ∈ items.
Proof.
  destruct d as [nm child]. unfold directories. rewrite elem_of_subdirs.
  simpl. split.
  - intros (sub & Hin & ->). eauto.
  - intros (sub & [= ->] & Hin). eauto.
Qed.

Lemma gather_fmap_1 {A} (g : string * A → list entry * list block) l :
  (gather ((fun y => (y.1, g y)) <$> l)).1 = concat ((fun y => (g y).1) <$> l).
Proof.
  unfold gather. simpl. f_equal. rewrite <- list_fmap_compose.
  by apply list_fmap_ext.
Qed.

Lemma gather_fmap_2 {A} (g : string * A → list entry * list block) l :
  (gather ((fun y => (y.1, g y)) <$> l)).2 = concat ((fun y => (g y).2) <$> l).
Proof.
  unfold gather. simpl. f_equal. rewrite <- list_fmap_compose.
  by apply list_fmap_ext.
Qed.

Lemma walk_in_order
    (cd : codecs) (gi si sti ai : list string) (root : list string)
    (name : string) (level : nat) (include_contents : bool)
    (items : list (string * node)) :
  early_excluded name = false →
  is_ignored root gi si sti ai true = false →
  traverse_directory cd gi si sti ai root name level include_contents
    (Dir items)
  = (Entry root true level name
       :: concat ((fun d =>
                     (traverse_directory cd gi si sti ai (root ++ [d.1]) d.1
                        (S level) include_contents d.2).1)
                  <$> sorted_by_name (directories items))
       ++ concat ((fun f =>
                     (visit_file cd gi si sti ai root level include_contents
                        f.1 f.2).1)
                  <$> sorted_by_name (files items)),
     concat ((fun d =>
                (traverse_directory cd gi si sti ai (root ++ [d.1]) d.1
                   (S level) include_contents d.2).2)
             <$> sorted_by_name (directories items))
     ++ concat ((fun f =>
                   (visit_file cd gi si sti ai root level include_contents
                      f.1 f.2).2)
                <$> sorted_by_name (files items)))
  ∧ by_name (sorted_by_name (directories items))
  ∧ by_name (sorted_by_name (files items))
  ∧ sorted_by_name (directories items) ≡ₚ directories items
  ∧ sorted_by_name (files items) ≡ₚ files items.
Proof.
  intros Hx Hroot. split.
  - rewrite walk_dir, Hx. unfold ignored. rewrite Hroot. cbv zeta.
    rewrite (subdirs_directories
               (fun item child =>
                  traverse_directory cd gi si sti ai (root ++ [item]) item
                    (S level) include_contents child)).
    rewrite (sorted_by_name_fmap
               (fun d => traverse_directory cd gi si sti ai (root ++ [d.1]) d.1
                           (S level) include_contents d.2)).
    rewrite (gather_fmap_1
               (fun d => traverse_directory cd gi si sti ai (root ++ [d.1]) d.1
                           (S level) include_contents d.2)).
    rewrite (gather_fmap_2
               (fun d => traverse_directory cd gi si sti ai (root ++ [d.1]) d.1
                           (S level) include_contents d.2)).
    rewrite (gather_fmap_1
               (fun f => visit_file cd gi si sti ai root level include_contents
                           f.1 f.2)).
    rewrite (gather_fmap_2
               (fun f => visit_file cd gi si sti ai root level include_contents
                           f.1 f.2)).
    reflexivity.
  - split; [apply sorted_by_name_sorted |].
    split; [apply sorted_by_name_sorted |].
    split; apply sorted_by_name_perm.
Qed.

(** X14. A directory that the walk enters yields its own line, then what
    the walks of its subdirectories yield, taken by increasing name, then
    the lines of its files, taken by increasing name; the blocks follow
    the same order.  Names are compared character by character on their
    code points. *)
Theorem X14_walk_order
    (cd : codecs) (gi si sti ai : list string) (root : list string)
    (name : string) (level : nat) (include_contents : bool)
    (items : list (string * node)) :
  early_excluded name = false →
  is_ignored root gi si sti ai true = false →
  traverse_directory cd gi si sti ai root name level include_contents
    (Dir items)
  = (Entry root true level name
       :: concat ((fun d =>
                     (traverse_directory cd gi si sti ai (root ++ [d.1]) d.1
                        (S level) include_contents d.2).1)
                  <$> sorted_by_name (directories items))
       ++ concat ((fun f =>
                     (visit_file cd gi si sti ai root level include_contents
                        f.1 f.2).1)
                  <$> sorted_by_name (files items)),
     concat ((fun d =>
                (traverse_directory cd gi si sti ai (root ++ [d.1]) d.1
                   (S level) include_contents d.2).2)
             <$> sorted_by_name (directories items))
     ++ concat ((fun f =>
                   (visit_file cd gi si sti ai root level include_contents
                      f.1 f.2).2)
                <$> sorted_by_name (files items)))
  ∧ by_name (sorted_by_name (directories items))
  ∧ by_name (sorted_by_name (files items))
  ∧ sorted_by_name (directories items) ≡ₚ directories items
  ∧ sorted_by_name (files items) ≡ₚ files items.
Proof. apply walk_in_order. Qed.

Lemma X14_witness :
  early_excluded "proj" = false
  ∧ is_ignored [] [] ["notes.txt"] [] (additional_ignore_patterns "proj") true
    = false
  ∧ by_name (sorted_by_name (files notes_project)).
Proof.
  split; [reflexivity |]. split; [reflexivity |].
  exact (proj1 (proj2 (proj2
           (X14_walk_order ascii_codecs [] ["notes.txt"] []
              (additional_ignore_patterns "proj") [] "proj" 0 true
              notes_project eq_refl eq_refl)))).
Defined.



(** ** Reading an ignore file *)

Lemma lstrip_head s :
  match PyStr.lstrip s with
  | "" => True
  | String c _ => PyStr.isspace c = false
  end.
Proof.
  induction s as [| c s IH]; [done |]. cbn [PyStr.lstrip].
  destruct (PyStr.isspace c) eqn:Hc; [exact IH | exact Hc].
Qed.

Lemma lstrip_fixed s :
  match s with
  | "" => True
  | String c _ => PyStr.isspace c = false
  end →
  PyStr.lstrip s = s.
Proof. destruct s as [| c s]; [done |]. cbn [PyStr.lstrip]. by intros ->. Qed.

Lemma rstrip_head s :
  match s with
  | "" => True
  | String c _ => PyStr.isspace c = false
  end →
  match PyStr.rstrip s with
  | "" => s = ""
  | String c _ => PyStr.isspace c = false
  end.
Proof.
  destruct s as [| c s]; [done |]. cbn [PyStr.rstrip]. intros Hc.
  destruct (PyStr.rstrip s); [by rewrite Hc | done].
Qed.

Lemma rstrip_cons_nonempty c s :
  PyStr.rstrip s ≠ "" → PyStr.rstrip (String c s) = String c (PyStr.rstrip s).
Proof. cbn [PyStr.rstrip]. by destruct (PyStr.rstrip s). Qed.

Lemma rstrip_idem s : PyStr.rstrip (PyStr.rstrip s) = PyStr.rstrip s.
Proof.
  induction s as [| c s IH]; [done |]. cbn [PyStr.rstrip].
  destruct (PyStr.rstrip s) as [| x r] eqn:Hr.
  - destruct (PyStr.isspace c) eqn:Hc; [done |].
    cbn [PyStr.rstrip]. by rewrite Hc.
  - rewrite rstrip_cons_nonempty; by rewrite IH.
Qed.

Lemma strip_idem s : PyStr.strip (PyStr.strip s) = PyStr.strip s.
Proof.
  unfold PyStr.strip.
  pose proof (rstrip_head _ (lstrip_head s)) as Hhead.
  rewrite (lstrip_fixed (PyStr.rstrip (PyStr.lstrip s))).
  - apply rstrip_idem.
  - by destruct (PyStr.rstrip (PyStr.lstrip s)).
Qed.

Lemma replace_char_nonempty a b s :
  s ≠ "" → PyStr.replace (String a "") (String b "") s ≠ "".
Proof. destruct s; [done |]. by rewrite replace_char_cons. Qed.

(** X16. The patterns taken from the text of an ignore file are the
    stripped texts of its lines, for the lines that are not blank and do
    not have [#] as their very first character.  Such a pattern is not
    empty and has no white space left at either end; every pattern loaded
    from it, separator variants included, is not empty. *)
Theorem X16_patterns_of_an_ignore_file (text p : string) :
  (p ∈ patterns_of text
   ↔ ∃ line, line ∈ PyStr.readlines text
             ∧ PyStr.strip line ≠ ""
             ∧ PyStr.startswith "#" line = false
             ∧ p = PyStr.strip line)
  ∧ (p ∈ patterns_of text → p ≠ "" ∧ PyStr.strip p = p)
  ∧ (p ∈ expand_patterns (patterns_of text) → p ≠ "").
Proof.
  assert (Hiff : p ∈ patterns_of text
    ↔ ∃ line, line ∈ PyStr.readlines text
              ∧ PyStr.strip line ≠ ""
              ∧ PyStr.startswith "#" line = false
              ∧ p = PyStr.strip line).
  { unfold patterns_of. rewrite list_elem_of_fmap. split.
    - intros (line & -> & Hin).
      apply list_elem_of_In, filter_In in Hin as [Hin Hkeep].
      apply andb_true_iff in Hkeep as [Hne Hc].
      apply negb_true_iff, String.eqb_neq in Hne.
      apply negb_true_iff in Hc.
      exists line. by rewrite list_elem_of_In.
    - intros (line & Hin & Hne & Hc & ->). exists line. split; [done |].
      apply list_elem_of_In, filter_In. split; [by apply list_elem_of_In |].
      apply String.eqb_neq in Hne. by rewrite Hne, Hc. }
  assert (Hshape : ∀ q, q ∈ patterns_of text → q ≠ "" ∧ PyStr.strip q = q).
  { intros q. unfold patterns_of. rewrite list_elem_of_fmap.
    intros (line & -> & Hin).
    apply list_elem_of_In, filter_In in Hin as [_ Hkeep].
    apply andb_true_iff in Hkeep as [Hne _].
    apply negb_true_iff, String.eqb_neq in Hne.
    split; [done | apply strip_idem]. }
  split; [exact Hiff |]. split; [apply Hshape |].
  intros (q & Hq & Hp)%elem_of_expand_patterns.
  apply Hshape in Hq as [Hq _]. unfold expand_pattern in Hp.
  apply elem_of_app in Hp as [Hp | Hp].
  { by apply list_elem_of_singleton in Hp as ->. }
  apply elem_of_app in Hp as [Hp | Hp].
  - destruct (PyStr.contains "/" q); [| by apply elem_of_nil in Hp].
    apply list_elem_of_singleton in Hp as ->. by apply replace_char_nonempty.
  - destruct (PyStr.contains "\" q); [| by apply elem_of_nil in Hp].
    apply list_elem_of_singleton in Hp as ->. by apply replace_char_nonempty.
Qed.

Lemma X16_witness :
  "# kept" ∈ patterns_of ("# dropped" +:+ nl +:+ "  # kept" +:+ nl)
  ∧ "# kept" ≠ "" ∧ PyStr.strip "# kept" = "# kept".
Proof.
  assert (H : "# kept" ∈ patterns_of ("# dropped" +:+ nl +:+ "  # kept" +:+ nl)).
  { vm_compute. repeat constructor. }
  split; [exact H |].
  exact (proj1 (proj2 (X16_patterns_of_an_ignore_file _ _)) H).
Defined.

(** ** Reading a file *)

(** X17. Only the first 1024 bytes decide whether a file is binary: when
    they hold no null byte, the file is taken for text whatever follows
    them. *)
Theorem X17_null_byte_after_first_kilobyte_unseen (head rest : list byte) :
  (1024 ≤ length head)%nat →
  x00 ∉ head →
  is_binary (head ++ rest) = false.
Proof.
  intros Hlen Hnul. apply not_true_iff_false.
  intros (i & Hi & Hlook)%is_binary_spec.
  rewrite lookup_app_l in Hlook by lia.
  apply Hnul. by eapply list_elem_of_lookup_2.
Qed.

Lemma X17_witness :
  (1024 ≤ length (replicate 1024 x41))%nat
  ∧ (x00 ∉ replicate 1024 x41)
  ∧ is_binary (replicate 1024 x41 ++ [x00; x00]) = false.
Proof.
  assert (H1 : (1024 ≤ length (replicate 1024 x41))%nat)
    by (rewrite length_replicate; lia).
  assert (H2 : x00 ∉ replicate 1024 x41).
  { by intros [? _]%elem_of_replicate. }
  split; [exact H1 |]. split; [exact H2 |].
  exact (X17_null_byte_after_first_kilobyte_unseen _ _ H1 H2).
Defined.



(** ** The icon exporter, further *)

Section IconMore.
Import Icons.

Lemma main_cases iconutil base_image st name :
  (name = "icon.ico" →
   out_dir (main iconutil base_image st).1 !! name
   = Some (Ico (Image 16 16) ((fun size => (size, size)) <$> ico_sizes)))
  ∧ (name = "icon.icns" →
     out_dir (main iconutil base_image st).1 !! name
     = match iconutil with
       | ToolDone =>
           Some (Icns (iconset (resized_all base_image icns_sizes)))
       | ToolRaised _ => out_dir st !! name
       end)
  ∧ (∀ size, (name, size) ∈ icon_sizes →
     out_dir (main iconutil base_image st).1 !! name
     = Some (Raster (Image size size)))
  ∧ (name ∉ icon_sizes.*1 ++ ["icon.icns"; "icon.ico"] →
     out_dir (main iconutil base_image st).1 !! name = out_dir st !! name).
Proof.
  assert (Hicns : "icon.icns" ∉ icon_sizes.*1).
  { apply (bool_decide_unpack _). by vm_compute. }
  split; [| split; [| split]].
  - intros ->. unfold main, create_app_icons.
    generalize (foldl (export_icon base_image) st icon_sizes).
    intros st13. simpl. by rewrite lookup_insert_eq.
  - intros ->. unfold main, create_app_icons.
    rewrite <- (export_other base_image icon_sizes st "icon.icns" Hicns).
    generalize (foldl (export_icon base_image) st icon_sizes).
    intros st13. simpl. rewrite lookup_insert_ne by done.
    destruct iconutil; simpl; [by rewrite lookup_insert_eq | done].
  - intros size Hin.
    assert (Hname : name ∈ icon_sizes.*1).
    { apply list_elem_of_fmap. by exists (name, size). }
    unfold main. rewrite containers_only.
    + by apply export_saved; [apply icon_names_nodup |].
    + intros ->. revert Hname. apply (bool_decide_unpack _). by vm_compute.
    + intros ->. revert Hname. apply (bool_decide_unpack _). by vm_compute.
  - intros Hname. rewrite !not_elem_of_app, !not_elem_of_cons in Hname.
    destruct Hname as (Hname & Hn1 & Hn2 & _).
    unfold main. rewrite containers_only by done. by apply export_other.
Qed.
End IconMore.


(** X20. Called while the name [tempfile] is not bound, as it is when the
    module is imported instead of run, the function saves and announces
    the thirteen raster files and then raises [NameError]: every other
    file of the output directory, [icon.icns] and [icon.ico] included, is
    left as it was. *)
Theorem X20_unbound_tempfile_stops_after_rasters
    (iconutil : Icons.tool_outcome) (base_image : Icons.image)
    (st : Icons.state) :
  (Icons.create_app_icons false iconutil base_image st).2
  = Some (Icons.NameError "tempfile")
  ∧ Icons.printed (Icons.create_app_icons false iconutil base_image st).1
    = Icons.printed st
      ++ ((fun it => "Generated: " +:+ it.1) <$> Icons.icon_sizes)
  ∧ (∀ name size, (name, size) ∈ Icons.icon_sizes →
       Icons.out_dir (Icons.create_app_icons false iconutil base_image st).1
         !! name
       = Some (Icons.Raster (Icons.Image size size)))
  ∧ (∀ name, name ∉ Icons.icon_sizes.*1 →
       Icons.out_dir (Icons.create_app_icons false iconutil base_image st).1
         !! name
       = Icons.out_dir st !! name).
Proof.
  split; [done |]. split; [| split].
  - apply export_printed.
  - intros name size Hin.
    by apply (export_saved base_image); [apply icon_names_nodup |].
  - intros name Hname. by apply (export_other base_image).
Qed.

Lemma X20_witness :
  Icons.out_dir
    (Icons.create_app_icons false Icons.ToolDone (Icons.Image 512 512)
       (Icons.State ∅ [])).1 !! "icon.ico"
  = Icons.out_dir (Icons.State ∅ []) !! "icon.ico".
Proof.
  apply (X20_unbound_tempfile_stops_after_rasters Icons.ToolDone
           (Icons.Image 512 512) (Icons.State ∅ [])).
  apply (bool_decide_unpack _). by vm_compute.
Defined.

(** X21. The run changes the output directory under its fifteen names
    only, and what it leaves under them does not depend on what was
    there: running the exporter a second time leaves the directory as the
    first run left it. *)
Theorem X21_exporter_run_twice
    (iconutil : Icons.tool_outcome) (base_image : Icons.image)
    (st : Icons.state) :
  (∀ name, name ∉ Icons.icon_sizes.*1 ++ ["icon.icns"; "icon.ico"] →
     Icons.out_dir (Icons.main iconutil base_image st).1 !! name
     = Icons.out_dir st !! name)
  ∧ Icons.out_dir
      (Icons.main iconutil base_image (Icons.main iconutil base_image st).1).1
    = Icons.out_dir (Icons.main iconutil base_image st).1.
Proof.
  split; [intros name; apply main_cases |].
  apply map_eq. intros name.
  destruct (decide (name = "icon.ico")) as [-> | Hico].
  { by rewrite !(proj1 (main_cases iconutil base_image _ "icon.ico") eq_refl). }
  destruct (decide (name = "icon.icns")) as [-> | Hicns].
  { rewrite (proj1 (proj2 (main_cases iconutil base_image
                             (Icons.main iconutil base_image st).1
                             "icon.icns")) eq_refl).
    destruct iconutil; [| done].
    by rewrite (proj1 (proj2 (main_cases Icons.ToolDone base_image st
                                "icon.icns")) eq_refl). }
  destruct (decide (name ∈ Icons.icon_sizes.*1)) as [Hin | Hout].
  - apply list_elem_of_fmap in Hin as ([nm size] & Heq & Hin).
    simpl in Heq. subst name.
    by rewrite !(proj1 (proj2 (proj2 (main_cases iconutil base_image _ nm)))
                   size Hin).
  - apply main_cases.
    rewrite !not_elem_of_app, !not_elem_of_cons. repeat split; try done.
    apply not_elem_of_nil.
Qed.

Lemma X21_witness :
  Icons.out_dir
    (Icons.main Icons.ToolDone (Icons.Image 512 512)
       (Icons.State {[ "icon.png" := Icons.Raster (Icons.Image 512 512) ]} [])).1
    !! "icon.png"
  = Some (Icons.Raster (Icons.Image 512 512)).
Proof.
  rewrite (proj1 (X21_exporter_run_twice Icons.ToolDone (Icons.Image 512 512)
                    (Icons.State
                       {[ "icon.png" := Icons.Raster (Icons.Image 512 512) ]}
                       [])) "icon.png").
  - reflexivity.
  - apply (bool_decide_unpack _). by vm_compute.
Defined.

(** ** The main block of the summarizer *)

Lemma basename_plain name :
  PyStr.contains "/" name = false → basename name = name.
Proof. destruct name as [| c name]; [done |]. cbn [basename]. by intros ->. Qed.

Lemma basename_no_slash p : PyStr.contains "/" (basename p) = false.
Proof.
  induction p as [| c p IH]; [done |]. cbn [basename].
  by destruct (PyStr.contains "/" (String c p)) eqn:Hc.
Qed.

Lemma basename_after_slash dir name :
  PyStr.contains "/" name = false → basename (dir +:+ "/" +:+ name) = name.
Proof.
  intros Hname. induction dir as [| c dir IH].
  - rewrite append_nil. change ("/" +:+ name) with (String "/" name).
    cbn [basename]. rewrite contains_char_cons, Ascii.eqb_refl. simpl.
    by apply basename_plain.
  - rewrite append_cons. cbn [basename].
    rewrite contains_char_cons, !contains_char_app.
    change (PyStr.contains "/" "/") with true.
    by rewrite orb_true_r, orb_true_r.
Qed.

Lemma basename_trailing_slash dir : basename (dir +:+ "/") = "".
Proof.
  induction dir as [| c dir IH]; [reflexivity |].
  rewrite append_cons. cbn [basename].
  rewrite contains_char_cons, contains_char_app.
  change (PyStr.contains "/" "/") with true.
  by rewrite orb_true_r, orb_true_r.
Qed.

Lemma append_slash_nonempty dir rest : String.eqb (dir +:+ "/" +:+ rest) "" = false.
Proof. by destruct dir. Qed.

(** X22. The main block takes the answer to its prompt for project
    directory, the current directory when the answer is blank, and the
    text after its last slash for project name.  An answer that ends in a
    slash gives the empty project name; an answer [dir/name] gives [name];
    in no case does the project name hold a slash. *)
Theorem X22_project_name_from_answer
    (cd : codecs) (listing : string → list (string * node))
    (answer cwd dir name : string) :
  script_main cd listing "" cwd
  = generate_project_summary cd (basename cwd) (listing cwd)
  ∧ script_main cd listing (dir +:+ "/") cwd
    = generate_project_summary cd "" (listing (dir +:+ "/"))
  ∧ (PyStr.contains "/" name = false →
     script_main cd listing (dir +:+ "/" +:+ name) cwd
     = generate_project_summary cd name (listing (dir +:+ "/" +:+ name)))
  ∧ PyStr.contains "/" (basename (project_directory answer cwd)) = false.
Proof.
  split; [done |]. split; [| split].
  - unfold script_main, project_directory.
    assert (String.eqb (dir +:+ "/") "" = false) as -> by (by destruct dir).
    by rewrite basename_trailing_slash.
  - intros Hname. unfold script_main, project_directory.
    by rewrite append_slash_nonempty, basename_after_slash.
  - apply basename_no_slash.
Qed.

Lemma X22_witness :
  script_main ascii_codecs (fun _ => notes_project) "/home/me/proj" "/tmp"
  = generate_project_summary ascii_codecs "proj" notes_project.
Proof.
  exact (proj1 (proj2 (proj2
           (X22_project_name_from_answer ascii_codecs (fun _ => notes_project)
              "" "/tmp" "/home/me" "proj"))) eq_refl).
Defined.

(** ** No path twice *)

Lemma NoDup_concat_keyed {A} (key : A → option string)
    (xs : list (string * list A)) :
  NoDup xs.*1 →
  Forall (fun x => NoDup x.2 ∧ Forall (fun a => key a = Some x.1) x.2) xs →
  NoDup (concat xs.*2)
  ∧ Forall (fun a => ∃ k, k ∈ xs.*1 ∧ key a = Some k) (concat xs.*2).
Proof.
  induction xs as [| [k ps] xs IH]; simpl; intros Hnd Hall.
  - split; constructor.
  - apply NoDup_cons in Hnd as [Hk Hnd].
    apply Forall_cons in Hall as [[Hps Hkey] Hall].
    destruct (IH Hnd Hall) as [IH1 IH2]. simpl in *. split.
    + apply NoDup_app. split; [done |]. split; [| done].
      intros a Ha Ha'. rewrite Forall_forall in Hkey, IH2.
      destruct (IH2 a Ha') as (k' & Hk' & Hak').
      rewrite (Hkey a Ha) in Hak'. by injection Hak' as ->.
    + apply Forall_app. split.
      * eapply Forall_impl; [exact Hkey |]. intros a Ha. exists k.
        split; [by left | done].
      * eapply Forall_impl; [exact IH2 |]. intros a (k' & Hk' & Ha).
        exists k'. split; [by right | done].
Qed.

Lemma names_partition items :
  NoDup items.*1 → NoDup ((directories items).*1 ++ (files items).*1).
Proof.
  assert (Hsub : ∀ l nm,
    nm ∈ (directories l).*1 ++ (files l).*1 → nm ∈ l.*1).
  { intros l nm [Hd | Hf]%elem_of_app.
    - apply list_elem_of_fmap in Hd as (d & -> & Hd).
      apply elem_of_directories in Hd as (sub & _ & Hd).
      apply list_elem_of_fmap. by exists (d.1, Dir sub).
    - apply list_elem_of_fmap in Hf as ([nm' data] & -> & Hf).
      apply elem_of_files in Hf. apply list_elem_of_fmap.
      by exists (nm', File data). }
  induction items as [| [nm [data | sub]] items IH]; intros Hnd.
  - constructor.
  - rewrite fmap_cons in Hnd. apply NoDup_cons in Hnd as [Hnm Hnd].
    change (files ((nm, File data) :: items)) with ((nm, data) :: files items).
    change (directories ((nm, File data) :: items)) with (directories items).
    rewrite fmap_cons. cbn [fst].
    apply NoDup_app. specialize (IH Hnd). apply NoDup_app in IH as (H1 & H2 & H3).
    split; [done |]. split.
    + intros x Hx [-> | Hx']%elem_of_cons.
      * apply Hnm, Hsub, elem_of_app. by left.
      * by eapply H2.
    + apply NoDup_cons. split; [| done].
      intros Hin. apply Hnm, Hsub, elem_of_app. by right.
  - rewrite fmap_cons in Hnd. apply NoDup_cons in Hnd as [Hnm Hnd].
    change (files ((nm, Dir sub) :: items)) with (files items).
    change (directories ((nm, Dir sub) :: items))
      with ((nm, Dir sub) :: directories items).
    rewrite fmap_cons. cbn [fst]. rewrite <- app_comm_cons.
    apply NoDup_cons. split; [| by apply IH].
    intros Hin. by apply Hnm, Hsub.
Qed.

Lemma key_below (root : list string) (k : string) (rest : list string) :
  ((root ++ [k]) ++ rest) !! length root = Some k.
Proof.
  rewrite <- app_assoc, lookup_app_r by lia. by rewrite Nat.sub_diag.
Qed.

Lemma key_root (root : list string) : root !! length root = None.
Proof. by apply lookup_ge_None. Qed.

(** The paths of what a directory's walk yields after its own line: the
    lists for its subdirectories, then those for its files, keyed by
    item name, make a list without repetition as soon as each list is one
    and its paths start with the item. *)
Lemma NoDup_directory_paths {A B}
    (root : list string) (sd : list (string * A)) (sf : list (string * B))
    (pd : string * A → list (list string)) (pf : string * B → list (list string)) :
  NoDup (sd.*1 ++ sf.*1) →
  Forall (fun d => NoDup (pd d)
                   ∧ Forall (fun p => p !! length root = Some d.1) (pd d)) sd →
  Forall (fun f => NoDup (pf f)
                   ∧ Forall (fun p => p !! length root = Some f.1) (pf f)) sf →
  NoDup (root :: concat (pd <$> sd) ++ concat (pf <$> sf)).
Proof.
  intros Hnd Hd Hf.
  pose proof (NoDup_concat_keyed (fun p => p !! length root)
                (((fun d => (d.1, pd d)) <$> sd)
                 ++ ((fun f => (f.1, pf f)) <$> sf))) as Hkeyed.
  rewrite !fmap_app, <- !list_fmap_compose in Hkeyed.
  rewrite concat_app in Hkeyed.
  destruct Hkeyed as [Hnodup Hkeys].
  - exact Hnd.
  - apply Forall_app. split; apply Forall_fmap.
    + eapply Forall_impl; [exact Hd |]. by intros d.
    + eapply Forall_impl; [exact Hf |]. by intros f.
  - apply NoDup_cons. split; [| exact Hnodup].
    intros Hroot. rewrite Forall_forall in Hkeys.
    destruct (Hkeys root Hroot) as (k & _ & Hk).
    by rewrite key_root in Hk.
Qed.

Lemma fmap_concat {A B} (f : A → B) (ls : list (list A)) :
  f <$> concat ls = concat ((fun l : list A => f <$> l) <$> ls).
Proof.
  induction ls as [| l ls IH]; [done |]. simpl. by rewrite fmap_app, IH.
Qed.

Lemma visit_file_paths cd gi si sti ai root level ic (f : string * list byte) :
  (NoDup (e_path <$> (visit_file cd gi si sti ai root level ic f.1 f.2).1)
   ∧ Forall (fun p => p !! length root = Some f.1)
       (e_path <$> (visit_file cd gi si sti ai root level ic f.1 f.2).1))
  ∧ (NoDup (b_path <$> (visit_file cd gi si sti ai root level ic f.1 f.2).2)
     ∧ Forall (fun p => p !! length root = Some f.1)
         (b_path <$> (visit_file cd gi si sti ai root level ic f.1 f.2).2)).
Proof.
  assert (Hkey : (root ++ [f.1]) !! length root = Some f.1).
  { rewrite <- (app_nil_r (root ++ [f.1])). apply key_below. }
  unfold visit_file. cbn [fst snd]. split.
  - destruct (negb (ignored gi si sti ai (root ++ [f.1]) true)); simpl.
    + split; [apply NoDup_singleton | by constructor].
    + split; constructor.
  - destruct (ic && negb (is_binary f.2)); [| split; constructor].
    destruct (negb (ignored gi si sti ai (root ++ [f.1]) false));
      [| split; constructor].
    destruct (negb (String.eqb (PyStr.strip (read_file_contents cd f.2)) ""));
      simpl; [| split; constructor].
    split; [apply NoDup_singleton | by constructor].
Qed.

Lemma walk_paths_nodup n :
  unique_names n = true →
  ∀ cd gi si sti ai root name level ic,
    NoDup (e_path <$> (traverse_directory cd gi si sti ai root name level ic n).1)
    ∧ NoDup (b_path <$> (traverse_directory cd gi si sti ai root name level ic n).2).
Proof.
  induction n as [data | items IH] using node_tree_ind;
    intros Hu cd gi si sti ai root name level ic.
  { split; constructor. }
  destruct (early_excluded name) eqn:Hx.
  { rewrite walk_dir, Hx. split; constructor. }
  destruct (is_ignored root gi si sti ai true) eqn:Hroot.
  { rewrite walk_dir, Hx. unfold ignored. rewrite Hroot. split; constructor. }
  simpl in Hu. apply andb_true_iff in Hu as [Hnd Hsub].
  apply bool_decide_eq_true in Hnd. rewrite forallb_forall in Hsub.
  rewrite Forall_forall in IH.
  rewrite (proj1 (walk_in_order cd gi si sti ai root name level ic items
                    Hx Hroot)).
  cbn [fst snd].
  assert (Hnames : NoDup ((sorted_by_name (directories items)).*1
                          ++ (sorted_by_name (files items)).*1)).
  { rewrite !sorted_by_name_perm. by apply names_partition. }
  assert (Hdirs : ∀ d, d ∈ sorted_by_name (directories items) →
    (NoDup (e_path <$> (traverse_directory cd gi si sti ai (root ++ [d.1]) d.1
                          (S level) ic d.2).1)
     ∧ Forall (fun p => p !! length root = Some d.1)
         (e_path <$> (traverse_directory cd gi si sti ai (root ++ [d.1]) d.1
                        (S level) ic d.2).1))
    ∧ (NoDup (b_path <$> (traverse_directory cd gi si sti ai (root ++ [d.1]) d.1
                            (S level) ic d.2).2)
       ∧ Forall (fun p => p !! length root = Some d.1)
           (b_path <$> (traverse_directory cd gi si sti ai (root ++ [d.1]) d.1
                          (S level) ic d.2).2))).
  { intros d Hd.
    apply elem_of_sorted_by_name, elem_of_directories in Hd as (sub & Hd & Hin).
    assert (Hud : unique_names d.2 = true).
    { rewrite Hd. apply (Hsub (d.1, Dir sub)). by apply list_elem_of_In. }
    destruct (IH (d.1, Dir sub) Hin) with
      (cd := cd) (gi := gi) (si := si) (sti := sti) (ai := ai)
      (root := root ++ [d.1]) (name := d.1) (level := S level) (ic := ic)
      as [He Hb].
    { by rewrite Hd in Hud. }
    rewrite Hd. cbn [fst snd]. split; (split; [done |]).
    - apply Forall_fmap, Forall_forall. intros e Hin'.
      apply entries_not_ignored in Hin' as (rest & Hp & _).
      unfold compose. rewrite Hp. apply key_below.
    - apply Forall_fmap, Forall_forall. intros b Hin'.
      apply blocks_origin in Hin' as (rest & data & Hp & _).
      unfold compose. rewrite Hp. apply key_below. }
  split.
  - rewrite fmap_cons, fmap_app, !fmap_concat, <- !list_fmap_compose.
    cbn [e_path].
    apply (NoDup_directory_paths root _ _
             (fun d => e_path <$> (traverse_directory cd gi si sti ai
                                     (root ++ [d.1]) d.1 (S level) ic d.2).1)
             (fun f => e_path <$> (visit_file cd gi si sti ai root level ic
                                     f.1 f.2).1)); [done | |].
    + apply Forall_forall. intros d Hd. by apply Hdirs.
    + apply Forall_forall. intros f _. apply visit_file_paths.
  - rewrite fmap_app, !fmap_concat, <- !list_fmap_compose.
    eapply (NoDup_cons_1_2 root).
    apply (NoDup_directory_paths root _ _
             (fun d => b_path <$> (traverse_directory cd gi si sti ai
                                     (root ++ [d.1]) d.1 (S level) ic d.2).2)
             (fun f => b_path <$> (visit_file cd gi si sti ai root level ic
                                     f.1 f.2).2)); [done | |].
    + apply Forall_forall. intros d Hd. by apply Hdirs.
    + apply Forall_forall. intros f _. apply visit_file_paths.
Qed.

(** X23. In a tree where no directory holds two items of the same name,
    no path has two lines in the structure section and none has two
    blocks in the contents section. *)
Theorem X23_no_path_twice
    (cd : codecs) (gi si sti ai : list string) (project_name : string)
    (level : nat) (include_contents : bool) (items : list (string * node)) :
  unique_names (Dir items) = true →
  NoDup (e_path <$> (traverse_directory cd gi si sti ai [] project_name level
                       include_contents (Dir items)).1)
  ∧ NoDup (b_path <$> (traverse_directory cd gi si sti ai [] project_name level
                         include_contents (Dir items)).2).
Proof. intros Hu. by apply walk_paths_nodup. Qed.

Lemma X23_witness :
  unique_names (Dir notes_project) = true
  ∧ NoDup (e_path <$> (traverse_directory ascii_codecs [] ["notes.txt"] []
                         (additional_ignore_patterns "proj") [] "proj" 0 true
                         (Dir notes_project)).1).
Proof.
  assert (H : unique_names (Dir notes_project) = true) by (by vm_compute).
  split; [exact H |].
  exact (proj1 (X23_no_path_twice ascii_codecs [] ["notes.txt"] []
                  (additional_ignore_patterns "proj") "proj" 0 true
                  notes_project H)).
Defined.
